(** * Resource Monitor: health-state tracking and notification scheduling

    A shallow embedding of [monitor.py] (state store, check orchestrator,
    transition detector, notification scheduler) and of the values
    [core/html_report.py] interpolates into its report, followed by the
    properties of the specification.

    Conventions.
    - A Python [dict] whose iteration order is observable ([results],
      [down_now], [recovered_now], [GROUP_EMAIL_MAP], a parsed JSON object)
      is an insertion-ordered association list, see [PyDict].
    - [state["node_state"]] is a finite map from the key "group:name" to the
      last known issue flag.  The program only ever stores Python booleans in
      it, so [prev is None] is an absent key, [prev is False] is
      [Some false] and [prev is True] is [Some true].
    - Effects are explicit: the e-mails handed to [send_email] and the lines
      handed to [log] are collected, in order, in a list of [event]s. *)

From stdpp Require Import base option list strings gmap pretty.

(** ** Insertion-ordered dictionaries *)

Module PyDict.
Section Ops.
Context {V : Type}.

(** [d.get(k)] *)
Fixpoint get (k : string) (d : list (string * V)) : option V :=
  match d with
  | [] => None
  | (k', v) :: d' => if decide (k' = k) then Some v else get k d'
  end.

(** [d[k] = v]: an existing key keeps its position, a new one goes last. *)
Fixpoint set (k : string) (v : V) (d : list (string * V)) : list (string * V) :=
  match d with
  | [] => [(k, v)]
  | (k', v') :: d' =>
      if decide (k' = k) then (k, v) :: d' else (k', v') :: set k v d'
  end.

(** [d.setdefault(k, v)], for its effect on [d]. *)
Definition setdefault (k : string) (v : V) (d : list (string * V)) : list (string * V) :=
  match get k d with
  | Some _ => d
  | None => d ++ [(k, v)]
  end.

(** [d[k] = f(d[k])], the shape of [d[k]["rows"].append(r)] and of
    [d[k]["issues"] += 1].  Python raises [KeyError] on a missing key; every
    use in the program follows a [setdefault] on the same key, so that case
    is unreachable and is modelled as no change. *)
Definition update (k : string) (f : V → V) (d : list (string * V)) : list (string * V) :=
  match get k d with
  | Some v => set k (f v) d
  | None => d
  end.

Definition values (d : list (string * V)) : list V := snd <$> d.
End Ops.
End PyDict.

(** ** Data model *)

(** One row of a group's result, the dict built per node by
    [run_checks_once]. *)
Record row := Row {
  name : string;
  ip : string;
  ping : string;
  ssh : string;
  last_seen : string;
  uptime : string;
  is_issue : bool;
  role : string
}.

(** [{"rows": [...], "issues": n}] *)
Record group_data := GroupData {
  rows : list row;
  issues : nat
}.

(** The persisted state object. *)
Record state := State {
  node_state : gmap string bool;
  last_daily_summary : string;
  last_daily_reminder : string
}.

#[export] Instance row_eq_dec : EqDecision row.
Proof. solve_decision. Defined.

#[export] Instance group_data_eq_dec : EqDecision group_data.
Proof. solve_decision. Defined.

(** ** Constants *)

Definition PING_RETRIES : nat := 4.
Definition SSH_RETRIES : nat := 4.

Definition DAILY_SUMMARY_HOUR : nat := 0.
Definition DAILY_REMINDER_HOUR : nat := 10.

Definition GROUPS : list (string * string) :=
  [ ("RNC Cluster", "config/cluster_nodes.json");
    ("DGX Servers", "config/dgx_nodes.json");
    ("License Servers", "config/license_servers.json");
    ("NIS Servers", "config/nis_servers.json") ].

Definition GROUP_EMAIL_MAP : list (string * list string) :=
  [ ("RNC Cluster",
      ["dhyann@iisc.ac.in"; "naveennayaka@iisc.ac.in"; "shrinivasam@iisc.ac.in"]);
    ("DGX Servers",
      ["dhyann@iisc.ac.in"; "naveennayaka@iisc.ac.in"; "shrinivasam@iisc.ac.in"]);
    ("License Servers",
      ["dhyann@iisc.ac.in"; "akhileshku@iisc.ac.in"; "shivaprasadl@iisc.ac.in"]);
    ("NIS Servers",
      ["dhyann@iisc.ac.in"; "shivaprasadl@iisc.ac.in"; "manjulap@iisc.ac.in"]) ].

(** ** The wall clock *)

(** [date.today()] *)
Record date := Date { year : nat; month : nat; day : nat }.

Fixpoint zeros (n : nat) : string :=
  match n with
  | O => ""
  | S n' => "0" +:+ zeros n'
  end.

(** [%0wd] *)
Definition zero_pad (w n : nat) : string :=
  let digits := pretty n in
  zeros (w - String.length digits) +:+ digits.

(** [date.isoformat()], YYYY-MM-DD *)
Definition isoformat (d : date) : string :=
  zero_pad 4 (year d) +:+ "-" +:+ zero_pad 2 (month d) +:+ "-" +:+ zero_pad 2 (day d).

(** ** Events: what a run hands to [log] and to [send_email] *)

(** The messages the program logs; [log_text] is the text of each. *)
Inductive log_msg :=
| MonitorStarted
| LoadedNodes (n : nat) (group_name : string)
| LoadError (cfg_path : string) (e : string)
| DownAlertSent (n : nat)
| RecoveryAlertSent (n : nat)
| DailySummarySent
| DailyReminderSent.

Definition log_text (m : log_msg) : string :=
  match m with
  | MonitorStarted => "monitor.py started"
  | LoadedNodes n g => "Loaded " +:+ pretty n +:+ " nodes for group '" +:+ g +:+ "'"
  | LoadError p e => "ERROR loading " +:+ p +:+ ": " +:+ e
  | DownAlertSent n => "Immediate DOWN alert sent for " +:+ pretty n +:+ " node(s)"
  | RecoveryAlertSent n => "Recovery alert sent for " +:+ pretty n +:+ " node(s)"
  | DailySummarySent => "Daily summary sent"
  | DailyReminderSent => "Daily reminder sent"
  end.

(** The values [build_report_html] interpolates into its markup: the banner
    ([healthy], the overall issue count), the node total, and per group the
    header's issue count and the rows of its table.  The surrounding markup is
    constant text. *)
Record report_section := ReportSection {
  sec_group : string;
  sec_issues : nat;
  sec_rows : list row
}.

Record report := Report {
  healthy : bool;
  shown_issues : nat;
  total_nodes : nat;
  sections : list report_section
}.

(** [send_email(subject, html, recipients)]; [None] is the call without
    recipients, which leaves the default list to the mailer. *)
Record email := Email {
  subject : string;
  body : report;
  recipients : option (list string)
}.

Inductive event :=
| Logged (m : log_msg)
| Sent (e : email).

#[export] Instance log_msg_eq_dec : EqDecision log_msg.
Proof. solve_decision. Defined.

#[export] Instance report_section_eq_dec : EqDecision report_section.
Proof. solve_decision. Defined.

#[export] Instance report_eq_dec : EqDecision report.
Proof. solve_decision. Defined.

#[export] Instance email_eq_dec : EqDecision email.
Proof. solve_decision. Defined.

#[export] Instance event_eq_dec : EqDecision event.
Proof. solve_decision. Defined.

(** ** State store

    [load_state] and [save_state] work on the parsed JSON document, before any
    field of it is read; a parsed document is a [pyval].  The file
    [logs/state.json] is [None] while it does not exist and [Some text]
    otherwise.  [json.loads] and [json.dumps] are the library's: [json_loads]
    answers [None] where [json.loads] (or reading the text) raises. *)

#[local] Unset Elimination Schemes.
Inductive pyval :=
| PNone
| PBool (b : bool)
| PInt (z : Z)
| PFloat (literal : string)
| PStr (s : string)
| PList (l : list pyval)
| PDict (d : list (string * pyval)).
#[local] Set Elimination Schemes.

(** The [default] dict of [load_state], in the order it is written. *)
Definition default_state : list (string * pyval) :=
  [ ("node_state", PDict []);
    ("last_daily_summary", PStr "");
    ("last_daily_reminder", PStr "") ].

(** [for k in default: data.setdefault(k, default[k])] *)
Definition back_fill (default data : list (string * pyval)) : list (string * pyval) :=
  fold_left (λ d kv, PyDict.setdefault kv.1 kv.2 d) default data.

(** [data[k]] of a parsed document, when it is an object that has [k]. *)
Definition field (k : string) (v : pyval) : option pyval :=
  match v with
  | PDict d => PyDict.get k d
  | _ => None
  end.

Section StateStore.
Variable json_loads : string → option pyval.
Variable json_dumps : pyval → string.

(** [STATE_FILE.write_text(json.dumps(state, indent=2))]: the new contents
    of the file. *)
Definition save_state (st : pyval) : option string :=
  Some (json_dumps st).

(** Returns the loaded state and the contents of the file afterwards. *)
Definition load_state (file : option string) : pyval * option string :=
  match file with
  | Some text =>
      match json_loads text with
      | Some (PDict data) => (PDict (back_fill default_state data), file)
      | Some _ =>
          (* [data.setdefault] raises AttributeError, caught by the
             [except Exception] *)
          (PDict default_state, save_state (PDict default_state))
      | None => (PDict default_state, save_state (PDict default_state))
      end
  | None => (PDict default_state, save_state (PDict default_state))
  end.
End StateStore.

(** ** Check orchestrator *)

(** A node entry of a group's configuration; a field is [None] when the
    entry has no such key. *)
Record entry := Entry {
  e_name : option string;
  e_ip : option string;
  e_skip_ssh : option bool;
  e_role : option string
}.

Section Orchestrator.
(** The external collaborators.  [load_config] answers [inl e] where it
    raises an exception whose text is [e]. *)
Variable load_config : string → string + list entry.
Variable ping_check : string → nat → bool * string.
Variable ssh_check : string → nat → bool * string.
Variable update_status_files : string → string → bool → string * string.

(** The body of [for entry in nodes]: the row appended to [rows]. *)
Definition check_entry (e : entry) : row :=
  let nm := default "" (e_name e) in
  let addr := default "" (e_ip e) in
  let skip_ssh := default false (e_skip_ssh e) in
  let p := ping_check addr PING_RETRIES in
  let s := if skip_ssh then (true, "skipped") else ssh_check addr SSH_RETRIES in
  let issue := negb p.1 || (negb skip_ssh && negb s.1) in
  let seen := update_status_files nm addr (negb issue) in
  {| name := nm;
     ip := if decide (addr = "") then "-" else addr;
     ping := if p.1 then "🟢 OK" else "🔴 (" +:+ p.2 +:+ ")";
     ssh := if s.1 then "🟢 OK" else "🔴 (" +:+ s.2 +:+ ")";
     last_seen := seen.1;
     uptime := seen.2;
     is_issue := issue;
     role := default "default" (e_role e) |}.

(** One group's inner loop, from [rows = []] and [issues = 0]. *)
Definition check_group (nodes : list entry) : group_data :=
  fold_left
    (λ acc e,
       let r := check_entry e in
       {| rows := rows acc ++ [r];
          issues := if is_issue r then issues acc + 1 else issues acc |})
    nodes {| rows := []; issues := 0 |}.

(** [run_checks_once()]: the results, the total and the lines logged. *)
Definition run_checks_once : list (string * group_data) * nat * list event :=
  fold_left
    (λ acc g,
       let '(results, total_issues, logged) := acc in
       match load_config g.2 with
       | inr nodes =>
           let data := check_group nodes in
           (PyDict.set g.1 data results,
            total_issues + issues data,
            logged ++ [Logged (LoadedNodes (length nodes) g.1)])
       | inl e => (results, total_issues, logged ++ [Logged (LoadError g.2 e)])
       end)
    GROUPS ([], 0, []).
End Orchestrator.

(** ** Transition detector *)

(** [f"{group}:{r['name']}"] *)
Definition node_key (group : string) (r : row) : string :=
  group +:+ ":" +:+ name r.

(** What the detection loop carries: [state["node_state"]], [down_now] and
    [recovered_now]. *)
Record detection := Detection {
  nodes : gmap string bool;
  down_now : list (string * group_data);
  recovered_now : list (string * group_data)
}.

Definition no_rows : group_data := {| rows := []; issues := 0 |}.

Definition append_row (r : row) (d : group_data) : group_data :=
  {| rows := rows d ++ [r]; issues := issues d |}.

Definition bump_issues (d : group_data) : group_data :=
  {| rows := rows d; issues := issues d + 1 |}.

(** The three statements under [if prev is False and curr is True]. *)
Definition note_down (group : string) (r : row) (down : list (string * group_data))
  : list (string * group_data) :=
  let d1 := PyDict.setdefault group no_rows down in
  let d2 := PyDict.update group (append_row r) d1 in
  PyDict.update group bump_issues d2.

(** The two statements under [if prev is True and curr is False]. *)
Definition note_recovered (group : string) (r : row) (recovered : list (string * group_data))
  : list (string * group_data) :=
  let d1 := PyDict.setdefault group no_rows recovered in
  PyDict.update group (append_row r) d1.

(** The body of the inner loop for one row [r] of [group]. *)
Definition detect_row (group : string) (d : detection) (r : row) : detection :=
  let key := node_key group r in
  let curr := is_issue r in
  match nodes d !! key with
  | None =>
      {| nodes := <[key := curr]> (nodes d);
         down_now := down_now d;
         recovered_now := recovered_now d |}
  | Some prev =>
      let down :=
        if negb prev && curr then note_down group r (down_now d) else down_now d in
      let recovered :=
        if prev && negb curr then note_recovered group r (recovered_now d)
        else recovered_now d in
      {| nodes := <[key := curr]> (nodes d);
         down_now := down;
         recovered_now := recovered |}
  end.

(** [for r in data["rows"]] *)
Definition detect_group (d : detection) (g : string * group_data) : detection :=
  fold_left (detect_row g.1) (rows g.2) d.

(** [for group, data in results.items()] *)
Definition detect (results : list (string * group_data)) (d : detection) : detection :=
  fold_left detect_group results d.

(** The loop starts with [down_now = {}] and [recovered_now = {}]. *)
Definition start (ns : gmap string bool) : detection :=
  {| nodes := ns; down_now := []; recovered_now := [] |}.

(** The rows of a run in the order the loops visit them, each with its
    group, and the same loop over that sequence. *)
Definition flat_rows (results : list (string * group_data)) : list (string * row) :=
  results ≫= λ g, (λ r, (g.1, r)) <$> rows g.2.

Definition detect_rows (l : list (string * row)) (d : detection) : detection :=
  fold_left (λ acc gr, detect_row gr.1 acc gr.2) l d.

(** What a run observed: each row's key with its issue flag. *)
Definition observations (results : list (string * group_data)) : list (string * bool) :=
  (λ gr, (node_key gr.1 gr.2, is_issue gr.2)) <$> flat_rows results.


(** ** Report input and alert helper *)

(** [build_report_html(results, overall_issues)] *)
Definition build_report_html (results : list (string * group_data)) (overall_issues : nat)
  : report :=
  {| healthy := bool_decide (overall_issues = 0);
     shown_issues := overall_issues;
     total_nodes := sum_list ((λ d, length (rows d)) <$> PyDict.values results);
     sections := (λ g, ReportSection g.1 (issues g.2) (rows g.2)) <$> results |}.

(** [send_group_alerts(prefix, results)]: a group with no rows, or with no
    recipients in [GROUP_EMAIL_MAP], is skipped. *)
Definition send_group_alerts (prefix : string) (results : list (string * group_data))
  : list event :=
  results ≫= λ g,
    match rows g.2 with
    | [] => []
    | _ :: _ =>
        match PyDict.get g.1 GROUP_EMAIL_MAP with
        | None | Some [] => []
        | Some to =>
            [Sent {| subject := prefix +:+ " [" +:+ g.1 +:+ "]";
                     body := build_report_html [(g.1, g.2)] (issues g.2);
                     recipients := Some to |}]
        end
    end.

(** [sum(len(v['rows']) for v in d.values())] *)
Definition alerted_nodes (d : list (string * group_data)) : nat :=
  sum_list ((λ v, length (rows v)) <$> PyDict.values d).

(** ** Notification scheduler *)

Definition DOWN_PREFIX : string := "🚨 IMMEDIATE ALERT – NODE DOWN".
Definition RECOVERY_PREFIX : string := "✅ RECOVERY ALERT – NODE BACK ONLINE".
Definition SUMMARY_SUBJECT : string := "📊 DAILY INFRASTRUCTURE SUMMARY (ALL SYSTEMS)".
Definition REMINDER_PREFIX : string := "⚠️ DAILY REMINDER – ISSUE NOT RESOLVED".

(** [if down_now: ...] *)
Definition immediate_down_alert (down : list (string * group_data)) (st : state)
  : state * list event :=
  match down with
  | [] => (st, [])
  | _ :: _ =>
      (st, send_group_alerts DOWN_PREFIX down ++ [Logged (DownAlertSent (alerted_nodes down))])
  end.

(** [if recovered_now: ...] *)
Definition immediate_recovery_alert (recovered : list (string * group_data)) (st : state)
  : state * list event :=
  match recovered with
  | [] => (st, [])
  | _ :: _ =>
      ({| node_state := node_state st;
          last_daily_summary := last_daily_summary st;
          last_daily_reminder := "" |},
       send_group_alerts RECOVERY_PREFIX recovered
         ++ [Logged (RecoveryAlertSent (alerted_nodes recovered))])
  end.

(** The daily summary rule. *)
Definition daily_summary (hour : nat) (today : string)
    (results : list (string * group_data)) (overall_issues : nat) (st : state)
  : state * list event :=
  if bool_decide (hour = DAILY_SUMMARY_HOUR) && bool_decide (last_daily_summary st ≠ today)
  then
    ({| node_state := node_state st;
        last_daily_summary := today;
        last_daily_reminder := last_daily_reminder st |},
     [ Sent {| subject := SUMMARY_SUBJECT;
               body := build_report_html results overall_issues;
               recipients := None |};
       Logged DailySummarySent ])
  else (st, []).

(** The dict comprehension [issues_only]. *)
Definition issues_only (results : list (string * group_data)) : list (string * group_data) :=
  (λ g, (g.1, {| rows := filter (λ r, is_issue r) (rows g.2); issues := issues g.2 |}))
    <$> filter (λ g, 0 < issues g.2) results.

(** The daily reminder rule. *)
Definition daily_reminder (hour : nat) (today : string)
    (results : list (string * group_data)) (overall_issues : nat) (st : state)
  : state * list event :=
  if bool_decide (0 < overall_issues)
     && bool_decide (hour = DAILY_REMINDER_HOUR)
     && bool_decide (last_daily_reminder st ≠ today)
  then
    ({| node_state := node_state st;
        last_daily_summary := last_daily_summary st;
        last_daily_reminder := today |},
     send_group_alerts REMINDER_PREFIX (issues_only results) ++ [Logged DailyReminderSent])
  else (st, []).

(** ** A run

    [main], from the loaded state [st] to the state handed to [save_state].
    [hour] is [now.hour] and [today] is [date.today().isoformat()]. *)

(** The state after the detection loop has rewritten [state["node_state"]]. *)
Definition detected (results : list (string * group_data)) (st : state) : state :=
  {| node_state := nodes (detect results (start (node_state st)));
     last_daily_summary := last_daily_summary st;
     last_daily_reminder := last_daily_reminder st |}.

(** The state in which the daily reminder rule is evaluated: after the
    detection loop, the two immediate alerts and the daily summary. *)
Definition before_reminder (hour : nat) (today : string)
    (results : list (string * group_data)) (overall_issues : nat) (st : state) : state :=
  let d := detect results (start (node_state st)) in
  let s0 := detected results st in
  let s1 := (immediate_down_alert (down_now d) s0).1 in
  let s2 := (immediate_recovery_alert (recovered_now d) s1).1 in
  (daily_summary hour today results overall_issues s2).1.

Definition main_body (hour : nat) (today : string)
    (results : list (string * group_data)) (overall_issues : nat) (st : state)
  : state * list event :=
  let d := detect results (start (node_state st)) in
  let s0 := detected results st in
  let a1 := immediate_down_alert (down_now d) s0 in
  let a2 := immediate_recovery_alert (recovered_now d) a1.1 in
  let a3 := daily_summary hour today results overall_issues a2.1 in
  let a4 := daily_reminder hour today results overall_issues a3.1 in
  (a4.1, a1.2 ++ a2.2 ++ a3.2 ++ a4.2).

Section Main.
Variable load_config : string → string + list entry.
Variable ping_check : string → nat → bool * string.
Variable ssh_check : string → nat → bool * string.
Variable update_status_files : string → string → bool → string * string.

Definition main (hour : nat) (today : date) (st : state) : state * list event :=
  let checks := run_checks_once load_config ping_check ssh_check update_status_files in
  let out := main_body hour (isoformat today) checks.1.1 checks.1.2 st in
  (out.1, [Logged MonitorStarted] ++ checks.2 ++ out.2).
End Main.

(** ** Successive runs on one date

    The external scheduler invokes the program again and again; each run
    starts from the state the previous one saved. *)

Record run_input := RunInput {
  run_hour : nat;
  run_results : list (string * group_data);
  run_overall : nat
}.

(** The events of each run, in order. *)
Fixpoint traces (today : string) (runs : list run_input) (st : state) : list (list event) :=
  match runs with
  | [] => []
  | r :: runs' =>
      let out := main_body (run_hour r) today (run_results r) (run_overall r) st in
      out.2 :: traces today runs' out.1
  end.

Definition summary_sent (t : list event) : bool :=
  bool_decide (Logged DailySummarySent ∈ t).

Definition reminder_sent (t : list event) : bool :=
  bool_decide (Logged DailyReminderSent ∈ t).

Definition is_recovery_log (e : event) : bool :=
  match e with
  | Logged (RecoveryAlertSent _) => true
  | _ => false
  end.

Definition recovery_alerted (t : list event) : bool :=
  existsb is_recovery_log t.

(** The number of runs whose events satisfy [p]. *)
Definition count_runs (p : list event → bool) (ts : list (list event)) : nat :=
  sum_list ((λ t, if p t then 1 else 0) <$> ts).


(** ** Vocabulary of the properties *)

(** The entry of [group] in [down_now] or [recovered_now]; a group without an
    entry has no rows. *)
Definition entry_of (group : string) (d : list (string * group_data)) : group_data :=
  default no_rows (PyDict.get group d).

(** [after] is [before] with [r] appended to the rows of [group] and [bump]
    added to its issue count, every other group untouched. *)
Definition row_added (group : string) (r : row) (bump : nat)
    (before after : list (string * group_data)) : Prop :=
  PyDict.get group after
    = Some {| rows := rows (entry_of group before) ++ [r];
              issues := issues (entry_of group before) + bump |}
  ∧ ∀ g, g ≠ group → PyDict.get g after = PyDict.get g before.

(** The invariant of [down_now] and [recovered_now] during the detection
    loop: both are dictionaries (distinct keys), a [down_now] entry counts its
    rows and a [recovered_now] entry counts nothing. *)
Definition alerts_ok (d : detection) : Prop :=
  NoDup (down_now d).*1
  ∧ NoDup (recovered_now d).*1
  ∧ (∀ g data, PyDict.get g (down_now d) = Some data → issues data = length (rows data))
  ∧ (∀ g data, PyDict.get g (recovered_now d) = Some data → issues data = 0).

(** The gates of the two daily rules, on the state in which each rule is
    evaluated. *)
Definition summary_due (hour : nat) (today : string) (st : state) : Prop :=
  hour = DAILY_SUMMARY_HOUR ∧ last_daily_summary st ≠ today.

Definition reminder_due (hour : nat) (today : string) (overall_issues : nat) (st : state)
  : Prop :=
  0 < overall_issues ∧ hour = DAILY_REMINDER_HOUR ∧ last_daily_reminder st ≠ today.

#[export] Instance summary_due_dec hour today st : Decision (summary_due hour today st).
Proof. unfold summary_due. apply _. Defined.

#[export] Instance reminder_due_dec hour today overall st :
  Decision (reminder_due hour today overall st).
Proof. unfold reminder_due. apply _. Defined.

(** The observations agree: rows that share a key carry the same flag. *)
Definition consistent (obs : list (string * bool)) : Prop :=
  ∀ k b1 b2, (k, b1) ∈ obs → (k, b2) ∈ obs → b1 = b2.

(** ** Sample data

    A configuration in which the two entries of the NIS group carry no
    [name]; the second host does not answer the ping. *)

Definition sample_load_config (cfg_path : string) : string + list entry :=
  if decide (cfg_path = "config/nis_servers.json")
  then inr [ {| e_name := None; e_ip := Some "10.0.0.1"; e_skip_ssh := None; e_role := None |};
             {| e_name := None; e_ip := Some "10.0.0.2"; e_skip_ssh := None; e_role := None |} ]
  else inr [].

Definition sample_ping_check (addr : string) (retries : nat) : bool * string :=
  if decide (addr = "10.0.0.2") then (false, "timeout") else (true, "").

Definition sample_ssh_check (addr : string) (retries : nat) : bool * string :=
  (true, "").

Definition sample_update_status_files (nm addr : string) (ok : bool) : string * string :=
  ("2024-05-01 10:00:00", "3 days").

Definition twin_healthy : row :=
  check_entry sample_ping_check sample_ssh_check sample_update_status_files
    {| e_name := None; e_ip := Some "10.0.0.1"; e_skip_ssh := None; e_role := None |}.

Definition twin_impaired : row :=
  check_entry sample_ping_check sample_ssh_check sample_update_status_files
    {| e_name := None; e_ip := Some "10.0.0.2"; e_skip_ssh := None; e_role := None |}.

(** What [run_checks_once] returns for that configuration. *)
Definition twin_results : list (string * group_data) :=
  (run_checks_once sample_load_config sample_ping_check sample_ssh_check
     sample_update_status_files).1.1.

(** A row of a node called [nm]. *)
Definition sample_row (nm : string) (issue : bool) : row :=
  {| name := nm;
     ip := "10.0.0.7";
     ping := if issue then "🔴 (timeout)" else "🟢 OK";
     ssh := "🟢 OK";
     last_seen := "2024-05-01 10:00:00";
     uptime := "3 days";
     is_issue := issue;
     role := "default" |}.

(** The scenario of two nodes of one group, [n1] impaired and [n2] healthy,
    both healthy at the previous run. *)
Definition scenario_results : list (string * group_data) :=
  [ ("G", {| rows := [sample_row "n1" true; sample_row "n2" false]; issues := 1 |}) ].

Definition scenario_nodes : gmap string bool :=
  <["G:n1" := false]> (<["G:n2" := false]> ∅).

(** A run in which [nis1], impaired at the previous run, answers again, and
    the e-mail its recovery alert sends. *)
Definition recovery_results : list (string * group_data) :=
  [ ("NIS Servers", {| rows := [sample_row "nis1" false]; issues := 0 |}) ].

Definition recovery_nodes : gmap string bool :=
  <["NIS Servers:nis1" := true]> ∅.

Definition recovery_mail : email :=
  {| subject := RECOVERY_PREFIX +:+ " [NIS Servers]";
     body := {| healthy := true;
                shown_issues := 0;
                total_nodes := 1;
                sections := [ReportSection "NIS Servers" 0 [sample_row "nis1" false]] |};
     recipients := Some ["dhyann@iisc.ac.in"; "shivaprasadl@iisc.ac.in";
                         "manjulap@iisc.ac.in"] |}.

(** Two runs at the reminder hour of 1 May 2024: both NIS nodes are impaired
    at the first, and [nis1] has recovered at the second. *)
Definition may_day : date := {| year := 2024; month := 5; day := 1 |}.

Definition outage_results : list (string * group_data) :=
  [ ("NIS Servers",
     {| rows := [sample_row "nis1" true; sample_row "nis2" true]; issues := 2 |}) ].

Definition partial_recovery_results : list (string * group_data) :=
  [ ("NIS Servers",
     {| rows := [sample_row "nis1" false; sample_row "nis2" true]; issues := 1 |}) ].

Definition outage_nodes : gmap string bool :=
  <["NIS Servers:nis1" := true]> (<["NIS Servers:nis2" := true]> ∅).

(** The state before the first of them: the summary of the day is out, the
    last reminder is of the day before. *)
Definition outage_state : state :=
  {| node_state := outage_nodes;
     last_daily_summary := "2024-05-01";
     last_daily_reminder := "2024-04-30" |}.

(** The state after the first of them. *)
Definition reminded_state : state :=
  {| node_state := outage_nodes;
     last_daily_summary := "2024-05-01";
     last_daily_reminder := "2024-05-01" |}.

Definition reminder_hour_runs : list run_input :=
  [ {| run_hour := 10; run_results := outage_results; run_overall := 2 |};
    {| run_hour := 10; run_results := partial_recovery_results; run_overall := 1 |} ].

(** Stand-ins for the JSON library on three texts: an empty object, an empty
    array, and anything else, which does not parse. *)
Definition sample_json_loads (text : string) : option pyval :=
  if decide (text = "{}") then Some (PDict [])
  else if decide (text = "[]") then Some (PList [])
  else None.

Definition sample_json_dumps (v : pyval) : string :=
  match v with
  | PDict [] => "{}"
  | PList [] => "[]"
  | _ => "{ ... }"
  end.

(** ** Further vocabulary *)

(** The groups whose configuration loads, each with its node entries, in the
    order of [GROUPS]. *)
Definition loaded_groups (load_config : string → string + list entry)
  : list (string * list entry) :=
  omap (λ g, match load_config g.2 with
             | inr nodes => Some (g.1, nodes)
             | inl _ => None
             end) GROUPS.

(** The line [run_checks_once] logs for a group. *)
Definition load_line (load_config : string → string + list entry) (g : string * string)
  : event :=
  match load_config g.2 with
  | inr nodes => Logged (LoadedNodes (length nodes) g.1)
  | inl e => Logged (LoadError g.2 e)
  end.

(** The impaired rows of a run. *)
Definition impaired (l : list (string * row)) : list (string * row) :=
  filter (λ gr, is_issue gr.2) l.

(** The state keys of the rows of a run, in order. *)
Definition row_keys (l : list (string * row)) : list string :=
  (λ gr, node_key gr.1 gr.2) <$> l.

(** ** Start-up

    The [__main__] block writes the default state when the file does not
    exist, before [main] loads it. *)
Section Startup.
Variable json_loads : string → option pyval.
Variable json_dumps : pyval → string.

Definition ensure_state_file (file : option string) : option string :=
  match file with
  | Some _ => file
  | None => save_state json_dumps (PDict default_state)
  end.

(** The state [main] starts from, and the file afterwards. *)
Definition startup (file : option string) : pyval * option string :=
  load_state json_loads json_dumps (ensure_state_file file).
End Startup.

(** ** The table rows of the report

    [severity], [node_state] and the cells [build_report_html] writes for one
    row.  [escape] is [html.escape].  A lookup that raises [KeyError] in the
    source makes the rendering [None]. *)
Module HtmlReport.

Definition ROLE_BADGE : list (string * (string * string)) :=
  [ ("login", ("LOGIN", "#0288d1"));
    ("compute", ("COMPUTE", "#6a1b9a"));
    ("gpu", ("GPU", "#f9a825"));
    ("storage", ("STORAGE", "#2e7d32"));
    ("default", ("NODE", "#546e7a")) ].

Definition SEVERITY_STYLE : list (string * (string * string)) :=
  [ ("OK", ("🟢 OK", "#1e8e3e"));
    ("CRITICAL", ("🔴 CRITICAL", "#d93025")) ].

Definition severity (r : row) : string :=
  if is_issue r then "CRITICAL" else "OK".

Definition node_state (r : row) : string :=
  if is_issue r then "🔴 DOWN" else "🟢 UP".

(** The cells of a table row, left to right, and the colour of its border. *)
Record row_cells := RowCells {
  border_color : string;
  node_cell : string;
  role_text : string;
  role_color : string;
  ip_cell : string;
  status_text : string;
  status_color : string;
  ping_cell : string;
  ssh_cell : string;
  last_seen_cell : string;
  node_state_cell : string
}.

Section Render.
Variable escape : string → string.

(** The body of [for r in data["rows"]]. *)
Definition render_row (r : row) : option row_cells :=
  match PyDict.get (severity r) SEVERITY_STYLE with
  | None => None
  | Some sev =>
      match PyDict.get "default" ROLE_BADGE with
      | None => None
      | Some fallback =>
          let badge := default fallback (PyDict.get (role r) ROLE_BADGE) in
          Some {| border_color := sev.2;
                  node_cell := escape (name r);
                  role_text := badge.1;
                  role_color := badge.2;
                  ip_cell := ip r;
                  status_text := sev.1;
                  status_color := sev.2;
                  ping_cell := ping r;
                  ssh_cell := ssh r;
                  last_seen_cell := last_seen r;
                  node_state_cell := node_state r |}
      end
  end.
End Render.
End HtmlReport.

(** ** More sample data *)

(** A JSON library that writes every state as one text and reads that text
    back as the default state. *)
Definition stable_json_dumps (v : pyval) : string := "default".

Definition stable_json_loads (text : string) : option pyval :=
  if decide (text = "default") then Some (PDict default_state) else None.

(** No configuration can be read. *)
Definition failing_load_config (cfg_path : string) : string + list entry :=
  inl "No such file".

(** A state document that lacks the reminder date and has a field of its
    own. *)
Definition partial_document : list (string * pyval) :=
  [ ("last_daily_summary", PStr "2024-05-01");
    ("schema", PInt 2);
    ("node_state", PDict [("NIS Servers:nis1", PBool true)]) ].

(** The default fields a parsed object lacks, in the order of the defaults. *)
Definition missing_defaults (data : list (string * pyval)) : list (string * pyval) :=
  filter (λ kv, ¬ is_Some (PyDict.get kv.1 data)) default_state.

(** ** The e-mails of the daily reminder *)

(** An e-mail of the daily reminder: its subject is the reminder prefix
    followed by a group in brackets. *)
Definition reminder_mail (e : email) : Prop :=
  ∃ g, subject e = REMINDER_PREFIX +:+ " [" +:+ g +:+ "]".

(** The e-mail the reminder sends to [to] for [group], whose result in the
    run is [full]: the report of that group alone, with only its impaired rows
    and with its issue count, also as the overall count. *)
Definition reminder_for (group : string) (full : group_data) (to : list string) : email :=
  {| subject := REMINDER_PREFIX +:+ " [" +:+ group +:+ "]";
     body := build_report_html
               [(group, {| rows := filter (λ r, is_issue r) (rows full);
                           issues := issues full |})]
               (issues full);
     recipients := Some to |}.

(** A configuration with the two NIS nodes of the sample runs; with
    [sample_ping_check], [nis1] answers and [nis2] does not. *)
Definition nis_load_config (cfg_path : string) : string + list entry :=
  if decide (cfg_path = "config/nis_servers.json")
  then inr [ {| e_name := Some "nis1"; e_ip := Some "10.0.0.1";
                e_skip_ssh := None; e_role := None |};
             {| e_name := Some "nis2"; e_ip := Some "10.0.0.2";
                e_skip_ssh := None; e_role := None |} ]
  else inr [].

(** What [run_checks_once] returns for the NIS group then. *)
Definition nis_checked : group_data :=
  check_group sample_ping_check sample_ssh_check sample_update_status_files
    [ {| e_name := Some "nis1"; e_ip := Some "10.0.0.1";
         e_skip_ssh := None; e_role := None |};
      {| e_name := Some "nis2"; e_ip := Some "10.0.0.2";
         e_skip_ssh := None; e_role := None |} ].

(** * Properties *)

(** ** Dictionaries *)

Section PyDictFacts.
Context {V : Type}.
Implicit Types (d : list (string * V)) (k : string) (v : V).

Lemma get_set_eq k v d : PyDict.get k (PyDict.set k v d) = Some v.
Proof.
  induction d as [|[k' v'] d IH]; simpl.
  - by rewrite decide_True.
  - destruct (decide (k' = k)) as [->|Hne]; simpl.
    + by rewrite decide_True.
    + by rewrite decide_False.
Qed.

Lemma get_set_ne k k' v d : k ≠ k' → PyDict.get k' (PyDict.set k v d) = PyDict.get k' d.
Proof.
  intros Hne. induction d as [|[k0 v0] d IH]; simpl.
  - by rewrite decide_False.
  - destruct (decide (k0 = k)) as [->|Hk]; simpl.
    + by rewrite !decide_False.
    + by rewrite IH.
Qed.

Lemma get_app k d1 d2 :
  PyDict.get k (d1 ++ d2) = match PyDict.get k d1 with
                            | Some v => Some v
                            | None => PyDict.get k d2
                            end.
Proof.
  induction d1 as [|[k' v'] d1 IH]; simpl; [done|].
  by destruct (decide (k' = k)).
Qed.

Lemma get_setdefault_eq k v d :
  PyDict.get k (PyDict.setdefault k v d) = Some (default v (PyDict.get k d)).
Proof.
  unfold PyDict.setdefault. destruct (PyDict.get k d) as [w|] eqn:Hg; simpl.
  - done.
  - rewrite get_app, Hg. simpl. by rewrite decide_True.
Qed.

Lemma get_setdefault_ne k k' v d :
  k ≠ k' → PyDict.get k' (PyDict.setdefault k v d) = PyDict.get k' d.
Proof.
  intros Hne. unfold PyDict.setdefault. destruct (PyDict.get k d); [done|].
  rewrite get_app. destruct (PyDict.get k' d); [done|].
  simpl. by rewrite decide_False.
Qed.

Lemma get_update_eq k (f : V → V) d :
  PyDict.get k (PyDict.update k f d) = f <$> PyDict.get k d.
Proof.
  unfold PyDict.update. destruct (PyDict.get k d) as [w|] eqn:Hg; simpl.
  - apply get_set_eq.
  - by rewrite Hg.
Qed.

Lemma get_update_ne k k' (f : V → V) d :
  k ≠ k' → PyDict.get k' (PyDict.update k f d) = PyDict.get k' d.
Proof.
  intros Hne. unfold PyDict.update. destruct (PyDict.get k d); [|done].
  by apply get_set_ne.
Qed.

Lemma get_None_not_elem k d : PyDict.get k d = None → k ∉ d.*1.
Proof.
  induction d as [|[k' v'] d IH]; simpl.
  - intros _ H. by apply elem_of_nil in H.
  - destruct (decide (k' = k)) as [->|Hne]; [done|].
    intros Hg [->|Hin]%elem_of_cons; [done|]. by apply IH.
Qed.

(** In a dictionary, whose keys are distinct, an item is what [get] finds. *)
Lemma get_elem_of_NoDup k v d : NoDup d.*1 → (k, v) ∈ d → PyDict.get k d = Some v.
Proof.
  induction d as [|[k' v'] d IH]; simpl.
  - intros _ H. by apply elem_of_nil in H.
  - intros [Hk' Hd]%NoDup_cons [[= -> ->]|Hin]%elem_of_cons.
    + by rewrite decide_True.
    + destruct (decide (k' = k)) as [->|Hne]; [|by apply IH].
      exfalso. apply Hk'. apply list_elem_of_fmap. by exists (k, v).
Qed.

Lemma keys_set_present k v d : is_Some (PyDict.get k d) → (PyDict.set k v d).*1 = d.*1.
Proof.
  induction d as [|[k' v'] d IH]; csimpl.
  - by intros [? ?].
  - destruct (decide (k' = k)) as [->|Hne]; csimpl; [done|].
    intros H. by rewrite IH.
Qed.

Lemma NoDup_setdefault k v d : NoDup d.*1 → NoDup (PyDict.setdefault k v d).*1.
Proof.
  intros Hd. unfold PyDict.setdefault. destruct (PyDict.get k d) eqn:Hg; [done|].
  rewrite fmap_app. simpl. apply NoDup_app. split; [done|]. split.
  - intros x Hx ->%list_elem_of_singleton. by apply get_None_not_elem in Hg.
  - apply NoDup_singleton.
Qed.

Lemma NoDup_update k (f : V → V) d : NoDup d.*1 → NoDup (PyDict.update k f d).*1.
Proof.
  intros Hd. unfold PyDict.update. destruct (PyDict.get k d) eqn:Hg; [|done].
  rewrite keys_set_present; [done|]. rewrite Hg. by eexists.
Qed.
End PyDictFacts.

(** ** The detection loop *)

Lemma detect_group_rows g d :
  detect_group d g = detect_rows ((λ r, (g.1, r)) <$> rows g.2) d.
Proof.
  unfold detect_group, detect_rows.
  generalize (rows g.2) d. intros l. induction l as [|r l IH]; intros d'; simpl; [done|].
  apply IH.
Qed.

Lemma detect_rows_app l1 l2 d :
  detect_rows (l1 ++ l2) d = detect_rows l2 (detect_rows l1 d).
Proof. unfold detect_rows. apply fold_left_app. Qed.

(** The nested loops visit the rows in the order of [flat_rows]. *)
Lemma detect_flat results d :
  detect results d = detect_rows (flat_rows results) d.
Proof.
  revert d. induction results as [|g results IH]; intros d; [done|].
  unfold detect, flat_rows in *. simpl.
  rewrite detect_rows_app, <- detect_group_rows. apply IH.
Qed.

Lemma detect_split results ns pre g r post :
  flat_rows results = pre ++ (g, r) :: post →
  detect results (start ns)
    = detect_rows post (detect_row g (detect_rows pre (start ns)) r).
Proof.
  intros Hflat. rewrite detect_flat, Hflat, detect_rows_app. done.
Qed.

Lemma note_down_added g r down : row_added g r 1 down (note_down g r down).
Proof.
  unfold row_added, note_down, entry_of. split.
  - rewrite !get_update_eq, get_setdefault_eq. done.
  - intros g' Hne. by rewrite !get_update_ne, get_setdefault_ne.
Qed.

Lemma note_recovered_added g r recovered :
  row_added g r 0 recovered (note_recovered g r recovered).
Proof.
  unfold row_added, note_recovered, entry_of. split.
  - rewrite get_update_eq, get_setdefault_eq. simpl.
    unfold append_row. by rewrite Nat.add_0_r.
  - intros g' Hne. by rewrite get_update_ne, get_setdefault_ne.
Qed.

(** Rows once noted stay: the alerts of a run only grow. *)
Lemma row_added_keeps g' r' bump before after g r :
  row_added g' r' bump before after →
  r ∈ rows (entry_of g before) → r ∈ rows (entry_of g after).
Proof.
  intros [Hg Hother] Hin. unfold entry_of at 1.
  destruct (decide (g = g')) as [->|Hne].
  - rewrite Hg. simpl. apply elem_of_app. by left.
  - by rewrite Hother.
Qed.

Lemma row_added_has g r bump before after :
  row_added g r bump before after → r ∈ rows (entry_of g after).
Proof.
  intros [Hg _]. unfold entry_of at 1. rewrite Hg. simpl.
  apply elem_of_app. right. by apply list_elem_of_singleton.
Qed.

Lemma detect_row_keeps g' d r' g r :
  (r ∈ rows (entry_of g (down_now d)) →
   r ∈ rows (entry_of g (down_now (detect_row g' d r'))))
  ∧ (r ∈ rows (entry_of g (recovered_now d)) →
     r ∈ rows (entry_of g (recovered_now (detect_row g' d r')))).
Proof.
  unfold detect_row. destruct (nodes d !! node_key g' r') as [prev|]; [|done].
  simpl. split.
  - destruct (negb prev && is_issue r'); [|done].
    apply (row_added_keeps g' r' 1), note_down_added.
  - destruct (prev && negb (is_issue r')); [|done].
    apply (row_added_keeps g' r' 0), note_recovered_added.
Qed.

Lemma detect_rows_keeps l d g r :
  (r ∈ rows (entry_of g (down_now d)) →
   r ∈ rows (entry_of g (down_now (detect_rows l d))))
  ∧ (r ∈ rows (entry_of g (recovered_now d)) →
     r ∈ rows (entry_of g (recovered_now (detect_rows l d)))).
Proof.
  revert d. induction l as [|[g' r'] l IH]; intros d; [done|].
  simpl. destruct (IH (detect_row g' d r')) as [IH1 IH2].
  destruct (detect_row_keeps g' d r' g r) as [H1 H2]. split; auto.
Qed.

(** One step of the loop, by the flag the lookup finds. *)
Lemma detect_row_classifies g d r prev :
  nodes d !! node_key g r = Some prev →
  match prev, is_issue r with
  | false, true =>
      row_added g r 1 (down_now d) (down_now (detect_row g d r))
      ∧ recovered_now (detect_row g d r) = recovered_now d
  | true, false =>
      row_added g r 0 (recovered_now d) (recovered_now (detect_row g d r))
      ∧ down_now (detect_row g d r) = down_now d
  | _, _ =>
      down_now (detect_row g d r) = down_now d
      ∧ recovered_now (detect_row g d r) = recovered_now d
  end.
Proof.
  intros Hprev. unfold detect_row. rewrite Hprev.
  destruct prev, (is_issue r); simpl; split; try done.
  - apply note_recovered_added.
  - apply note_down_added.
Qed.

(** Whatever branch is taken, the row's flag overwrites its key. *)
Lemma nodes_detect_row g d r :
  nodes (detect_row g d r) = <[node_key g r := is_issue r]> (nodes d).
Proof. unfold detect_row. by destruct (nodes d !! node_key g r). Qed.

Lemma nodes_detect_rows_snoc l g r d :
  nodes (detect_rows (l ++ [(g, r)]) d)
    = <[node_key g r := is_issue r]> (nodes (detect_rows l d)).
Proof. rewrite detect_rows_app. simpl. apply nodes_detect_row. Qed.

(** Keys that no row of [l] has keep their value. *)
Lemma nodes_detect_rows_other l d k :
  (∀ gr, gr ∈ l → node_key gr.1 gr.2 ≠ k) →
  nodes (detect_rows l d) !! k = nodes d !! k.
Proof.
  revert d. induction l as [|[g r] l IH]; intros d Hl; [done|].
  simpl. rewrite IH.
  - rewrite nodes_detect_row. apply lookup_insert_ne.
    apply (Hl (g, r)). left.
  - intros gr Hgr. apply Hl. by right.
Qed.

(** No key is ever removed. *)
Lemma nodes_detect_rows_keeps l d k :
  is_Some (nodes d !! k) → is_Some (nodes (detect_rows l d) !! k).
Proof.
  revert d. induction l as [|[g r] l IH]; intros d Hk; [done|].
  simpl. apply IH. rewrite nodes_detect_row.
  destruct (decide (node_key g r = k)) as [->|Hne].
  - rewrite lookup_insert_eq. by eexists.
  - by rewrite lookup_insert_ne.
Qed.

(** C1.  A row whose key the persisted node-state map holds finds a previous
    flag when the loop reaches it (the persisted one, unless an earlier row of
    the run has the same key), and is classified by the pair (previous flag,
    current flag): (false, true) appends the row to its group's entry of
    [down_now] and counts it, (true, false) appends it to its group's entry of
    [recovered_now], and equal flags leave both untouched.  A row so noted is
    in the alerts at the end of the run. *)
Theorem transition_classification results ns pre g r post :
  flat_rows results = pre ++ (g, r) :: post →
  is_Some (ns !! node_key g r) →
  let before := detect_rows pre (start ns) in
  let after := detect_row g before r in
  let final := detect results (start ns) in
  ∃ prev,
    nodes before !! node_key g r = Some prev
    ∧ ((∀ gr, gr ∈ pre → node_key gr.1 gr.2 ≠ node_key g r) →
         ns !! node_key g r = Some prev)
    ∧ final = detect_rows post after
    ∧ match prev, is_issue r with
      | false, true =>
          row_added g r 1 (down_now before) (down_now after)
          ∧ recovered_now after = recovered_now before
          ∧ r ∈ rows (entry_of g (down_now final))
      | true, false =>
          row_added g r 0 (recovered_now before) (recovered_now after)
          ∧ down_now after = down_now before
          ∧ r ∈ rows (entry_of g (recovered_now final))
      | _, _ =>
          down_now after = down_now before ∧ recovered_now after = recovered_now before
      end.
Proof.
  intros Hflat Hkey before after final.
  destruct (nodes_detect_rows_keeps pre (start ns) (node_key g r) Hkey) as [prev Hprev].
  fold before in Hprev. exists prev.
  assert (Hfinal : final = detect_rows post after) by (by apply detect_split).
  split; [done|]. split; [|split; [done|]].
  - intros Hpre. rewrite <- Hprev. subst before.
    by rewrite nodes_detect_rows_other.
  - pose proof (detect_row_classifies g before r prev Hprev) as Hstep.
    fold after in Hstep. rewrite Hfinal.
    destruct prev, (is_issue r); try done; destruct Hstep as [Hadd Hsame];
      (split; [done|]); (split; [done|]).
    + apply detect_rows_keeps. by eapply row_added_has.
    + apply detect_rows_keeps. by eapply row_added_has.
Qed.

Lemma transition_classification_witness :
  flat_rows scenario_results
    = [] ++ ("G", sample_row "n1" true) :: [("G", sample_row "n2" false)]
  ∧ scenario_nodes !! node_key "G" (sample_row "n1" true) = Some false
  ∧ sample_row "n1" true
      ∈ rows (entry_of "G" (down_now (detect scenario_results (start scenario_nodes)))).
Proof.
  assert (H1 : flat_rows scenario_results
                 = [] ++ ("G", sample_row "n1" true) :: [("G", sample_row "n2" false)])
    by reflexivity.
  assert (H2 : scenario_nodes !! node_key "G" (sample_row "n1" true) = Some false)
    by reflexivity.
  split; [exact H1|]. split; [exact H2|].
  destruct (transition_classification scenario_results scenario_nodes [] "G"
              (sample_row "n1" true) [("G", sample_row "n2" false)] H1
              (ex_intro _ false H2))
    as (prev & _ & Hprev & _ & Hclass).
  assert (Hp : scenario_nodes !! node_key "G" (sample_row "n1" true) = Some prev).
  { apply Hprev. intros gr Hgr. by apply elem_of_nil in Hgr. }
  rewrite H2 in Hp. injection Hp as <-.
  exact (proj2 (proj2 Hclass)).
Defined.

(** C2.  A row whose key the node-state map does not hold when the loop
    reaches it is recorded with its issue flag and enters neither [down_now]
    nor [recovered_now], whatever the flag is. *)
Theorem first_observation_never_alerts results ns pre g r post :
  flat_rows results = pre ++ (g, r) :: post →
  nodes (detect_rows pre (start ns)) !! node_key g r = None →
  let before := detect_rows pre (start ns) in
  let after := detect_row g before r in
  detect results (start ns) = detect_rows post after
  ∧ nodes after = <[node_key g r := is_issue r]> (nodes before)
  ∧ down_now after = down_now before
  ∧ recovered_now after = recovered_now before.
Proof.
  intros Hflat Habsent before after. split.
  - by apply detect_split.
  - subst before after. unfold detect_row. by rewrite Habsent.
Qed.

Lemma first_observation_never_alerts_witness :
  flat_rows scenario_results
    = [] ++ ("G", sample_row "n1" true) :: [("G", sample_row "n2" false)]
  ∧ nodes (detect_rows [] (start ∅)) !! node_key "G" (sample_row "n1" true) = None
  ∧ down_now (detect_row "G" (start ∅) (sample_row "n1" true)) = []
  ∧ recovered_now (detect_row "G" (start ∅) (sample_row "n1" true)) = [].
Proof.
  assert (H1 : flat_rows scenario_results
                 = [] ++ ("G", sample_row "n1" true) :: [("G", sample_row "n2" false)])
    by reflexivity.
  assert (H2 : nodes (detect_rows [] (start ∅)) !! node_key "G" (sample_row "n1" true)
                 = None)
    by reflexivity.
  split; [exact H1|]. split; [exact H2|].
  exact (proj2 (proj2 (first_observation_never_alerts _ _ _ _ _ _ H1 H2))).
Defined.

(** The key of a row holds the flag of the last row of the run that has
    that key. *)
Lemma nodes_detect_rows_last pre g r post d :
  (∀ gr, gr ∈ post → node_key gr.1 gr.2 ≠ node_key g r) →
  nodes (detect_rows (pre ++ (g, r) :: post) d) !! node_key g r = Some (is_issue r).
Proof.
  intros Hpost. rewrite detect_rows_app. simpl.
  rewrite nodes_detect_rows_other by done.
  rewrite nodes_detect_row. apply lookup_insert_eq.
Qed.

(** The key of every row of [l] holds, after the loop, the flag of a row of
    [l] that has that key. *)
Lemma nodes_detect_rows_holds l d g r :
  (g, r) ∈ l →
  ∃ g' r', (g', r') ∈ l
           ∧ node_key g' r' = node_key g r
           ∧ nodes (detect_rows l d) !! node_key g r = Some (is_issue r').
Proof.
  revert d g r. induction l as [|[g0 r0] l IH] using rev_ind; intros d0 g r Hin.
  - by apply elem_of_nil in Hin.
  - rewrite nodes_detect_rows_snoc.
    destruct (decide (node_key g0 r0 = node_key g r)) as [Heq|Hne].
    + exists g0, r0. split; [|split]; [|done|].
      { apply elem_of_app. right. by apply list_elem_of_singleton. }
      rewrite <- Heq. apply lookup_insert_eq.
    + apply elem_of_app in Hin as [Hin|Hin].
      * destruct (IH d0 g r Hin) as (g' & r' & Hin' & Hk & Hv).
        exists g', r'. split; [|split]; [apply elem_of_app; by left|done|].
        by rewrite lookup_insert_ne.
      * apply list_elem_of_singleton in Hin as [= -> ->]. done.
Qed.

(** C6, amended.  After a run every key the node-state map held before is
    still there, and the key of every row holds that row's issue flag unless
    a later row of the run has the same key, in which case it holds the flag
    of the last such row. *)
Theorem node_state_after_run results ns :
  let d := detect results (start ns) in
  (∀ k, is_Some (ns !! k) → is_Some (nodes d !! k))
  ∧ (∀ pre g r post,
       flat_rows results = pre ++ (g, r) :: post →
       (∀ gr, gr ∈ post → node_key gr.1 gr.2 ≠ node_key g r) →
       nodes d !! node_key g r = Some (is_issue r))
  ∧ (∀ g r, (g, r) ∈ flat_rows results →
       ∃ g' r', (g', r') ∈ flat_rows results
                ∧ node_key g' r' = node_key g r
                ∧ nodes d !! node_key g r = Some (is_issue r')).
Proof.
  intros d. subst d. rewrite detect_flat. split; [|split].
  - intros k Hk. by apply nodes_detect_rows_keeps.
  - intros pre g r post -> Hpost. by apply nodes_detect_rows_last.
  - intros g r Hin. by apply nodes_detect_rows_holds.
Qed.

Lemma node_state_after_run_witness :
  nodes (detect scenario_results (start scenario_nodes))
    !! node_key "G" (sample_row "n1" true) = Some true.
Proof.
  refine (proj1 (proj2 (node_state_after_run scenario_results scenario_nodes))
            [] "G" (sample_row "n1" true) [("G", sample_row "n2" false)] eq_refl _).
  intros gr Hgr. apply list_elem_of_singleton in Hgr. subst gr. simpl.
  intros [=].
Defined.

(** Counterexample to C6 as written, for two rows of a run that share a
    key: after the run of [twin_results] the key of the healthy twin holds the
    flag of the impaired one. *)
Lemma node_state_after_run_counterexample :
  ("NIS Servers", twin_healthy) ∈ flat_rows twin_results
  ∧ nodes (detect twin_results (start ∅)) !! node_key "NIS Servers" twin_healthy
      ≠ Some (is_issue twin_healthy).
Proof.
  split.
  - apply list_elem_of_In. vm_compute. by left.
  - vm_compute. intros [=].
Qed.

(** ** Re-running on the same observations *)

(** While the map agrees with every row still to come, and those rows agree
    among themselves, no row is classified. *)
Lemma detect_rows_quiet l d :
  (∀ gr, gr ∈ l → nodes d !! node_key gr.1 gr.2 = Some (is_issue gr.2)) →
  (∀ gr1 gr2, gr1 ∈ l → gr2 ∈ l →
     node_key gr1.1 gr1.2 = node_key gr2.1 gr2.2 → is_issue gr1.2 = is_issue gr2.2) →
  down_now (detect_rows l d) = down_now d
  ∧ recovered_now (detect_rows l d) = recovered_now d.
Proof.
  revert d. induction l as [|[g r] l IH]; intros d Hmap Hagree; [done|].
  simpl.
  assert (Hr : nodes d !! node_key g r = Some (is_issue r)).
  { apply (Hmap (g, r)). left. }
  assert (Hstep : down_now (detect_row g d r) = down_now d
                  ∧ recovered_now (detect_row g d r) = recovered_now d).
  { unfold detect_row. rewrite Hr. by destruct (is_issue r). }
  destruct Hstep as [Hd Hrec].
  destruct (IH (detect_row g d r)) as [Hd' Hrec'].
  - intros gr Hgr. rewrite nodes_detect_row.
    destruct (decide (node_key g r = node_key gr.1 gr.2)) as [Heq|Hne].
    + rewrite <- Heq, lookup_insert_eq. f_equal.
      apply (Hagree (g, r) gr); [left|by right|done].
    + rewrite lookup_insert_ne by done. apply Hmap. by right.
  - intros gr1 gr2 H1 H2. apply Hagree; by right.
  - split; congruence.
Qed.

Lemma elem_of_observations results k b :
  (k, b) ∈ observations results ↔
  ∃ g r, (g, r) ∈ flat_rows results ∧ k = node_key g r ∧ b = is_issue r.
Proof.
  unfold observations. rewrite list_elem_of_fmap. split.
  - intros [[g r] [[= -> ->] Hin]]. by exists g, r.
  - intros (g & r & Hin & -> & ->). by exists (g, r).
Qed.

(** C7, amended.  When the rows of a run that share a key carry the same
    issue flag (as they do when all keys are distinct), a second run over the
    same observations, started from the node-state map the first run left,
    classifies nothing: its [down_now] and [recovered_now] are empty. *)
Theorem rerun_is_quiet results1 results2 ns :
  consistent (observations results1) →
  (∀ o, o ∈ observations results2 ↔ o ∈ observations results1) →
  let first := detect results1 (start ns) in
  let second := detect results2 (start (nodes first)) in
  down_now second = [] ∧ recovered_now second = [].
Proof.
  intros Hcons Hsame first second. subst first second.
  rewrite (detect_flat results2).
  apply (detect_rows_quiet (flat_rows results2) (start (nodes (detect results1 (start ns))))).
  - intros [g r] Hin. simpl.
    assert (Hobs : (node_key g r, is_issue r) ∈ observations results1).
    { apply Hsame, elem_of_observations. by exists g, r. }
    apply elem_of_observations in Hobs as (g1 & r1 & Hin1 & Hk & Hb).
    destruct (nodes_detect_rows_holds (flat_rows results1) (start ns) g1 r1 Hin1)
      as (g' & r' & Hin' & Hk' & Hv).
    rewrite (detect_flat results1), Hk, Hv. f_equal. rewrite Hb.
    apply (Hcons (node_key g1 r1)); apply elem_of_observations; eauto.
  - intros [g1 r1] [g2 r2] H1 H2 Hk. simpl in *.
    apply (Hcons (node_key g1 r1)); apply Hsame, elem_of_observations.
    + by exists g1, r1.
    + exists g2, r2. by rewrite Hk.
Qed.

Lemma rerun_is_quiet_witness :
  consistent (observations scenario_results)
  ∧ down_now (detect scenario_results
                (start (nodes (detect scenario_results (start scenario_nodes))))) = []
  ∧ recovered_now (detect scenario_results
                     (start (nodes (detect scenario_results (start scenario_nodes))))) = [].
Proof.
  assert (H : consistent (observations scenario_results)).
  { intros k b1 b2 H1 H2.
    apply list_elem_of_In in H1. apply list_elem_of_In in H2. simpl in H1, H2.
    destruct H1 as [[= <- <-]|[[= <- <-]|[]]];
      destruct H2 as [[= <-]|[[= <-]|[]]]; try done; discriminate. }
  split; [exact H|].
  exact (rerun_is_quiet scenario_results scenario_results scenario_nodes H (λ o, iff_refl _)).
Defined.

(** Counterexample to C7 as written, for two rows that share a key and
    differ in their flag: the second run over [twin_results] reports the
    impaired twin as newly down and the healthy one as recovered. *)
Lemma rerun_is_quiet_counterexample :
  down_now (detect twin_results (start (nodes (detect twin_results (start ∅))))) ≠ []
  ∧ recovered_now (detect twin_results (start (nodes (detect twin_results (start ∅)))))
      ≠ [].
Proof. split; vm_compute; intros [=]. Qed.

(** ** Rows that share a key *)

(** C10.  Two rows of one group with equal names (a missing name is the
    empty string) have one key.  When the loop reaches the later row its
    lookup yields the flag the earlier one stored in this run, so a healthy
    earlier row followed by an impaired later one makes the later one newly
    down, whether or not the key was in the map before the run; after the run
    the key holds the flag of the last such row. *)
Theorem shared_key_within_run results ns pre g r1 mid r2 post :
  flat_rows results = pre ++ (g, r1) :: mid ++ (g, r2) :: post →
  name r1 = name r2 →
  (∀ gr, gr ∈ mid → node_key gr.1 gr.2 ≠ node_key g r1) →
  let reached := detect_rows (pre ++ (g, r1) :: mid) (start ns) in
  let after := detect_row g reached r2 in
  (∀ ping_check ssh_check update_status_files e,
     name (check_entry ping_check ssh_check update_status_files e) = default "" (e_name e))
  ∧ node_key g r1 = node_key g r2
  ∧ nodes reached !! node_key g r2 = Some (is_issue r1)
  ∧ (is_issue r1 = false → is_issue r2 = true →
       row_added g r2 1 (down_now reached) (down_now after)
       ∧ recovered_now after = recovered_now reached)
  ∧ detect results (start ns) = detect_rows post after
  ∧ ((∀ gr, gr ∈ post → node_key gr.1 gr.2 ≠ node_key g r2) →
       nodes (detect results (start ns)) !! node_key g r2 = Some (is_issue r2)).
Proof.
  intros Hflat Hname Hmid reached after.
  assert (Hkey : node_key g r1 = node_key g r2) by (unfold node_key; by rewrite Hname).
  assert (Hseen : nodes reached !! node_key g r2 = Some (is_issue r1)).
  { subst reached. rewrite <- Hkey. by apply nodes_detect_rows_last. }
  assert (Hsplit : detect results (start ns) = detect_rows post after).
  { subst after reached. apply detect_split. rewrite Hflat.
    by rewrite <- app_assoc. }
  split; [done|]. split; [done|]. split; [done|]. split; [|split; [done|]].
  - intros H1 H2. subst after. unfold detect_row. rewrite Hseen, H1, H2. simpl.
    split; [apply note_down_added|done].
  - intros Hpost. rewrite Hsplit. subst after.
    rewrite nodes_detect_rows_other by done.
    rewrite nodes_detect_row. apply lookup_insert_eq.
Qed.

Lemma shared_key_within_run_witness :
  flat_rows twin_results
    = [] ++ ("NIS Servers", twin_healthy) :: [] ++ ("NIS Servers", twin_impaired) :: []
  ∧ name twin_healthy = name twin_impaired
  ∧ (∅ : gmap string bool) !! node_key "NIS Servers" twin_impaired = None
  ∧ down_now (detect twin_results (start ∅))
      = [("NIS Servers", {| rows := [twin_impaired]; issues := 1 |})]
  ∧ nodes (detect twin_results (start ∅)) !! node_key "NIS Servers" twin_impaired
      = Some true.
Proof.
  assert (H1 : flat_rows twin_results
                 = [] ++ ("NIS Servers", twin_healthy)
                      :: [] ++ ("NIS Servers", twin_impaired) :: [])
    by (vm_compute; reflexivity).
  assert (H2 : name twin_healthy = name twin_impaired) by reflexivity.
  assert (H3 : ∀ gr : string * row,
             gr ∈ [] → node_key gr.1 gr.2 ≠ node_key "NIS Servers" twin_healthy).
  { intros gr Hgr. by apply elem_of_nil in Hgr. }
  destruct (shared_key_within_run twin_results ∅ [] "NIS Servers"
              twin_healthy [] twin_impaired [] H1 H2 H3)
    as (_ & _ & _ & _ & Hrun & Hlast).
  split; [exact H1|]. split; [exact H2|]. split; [reflexivity|]. split.
  - rewrite Hrun. vm_compute. reflexivity.
  - apply Hlast. intros gr Hgr. by apply elem_of_nil in Hgr.
Defined.

(** ** The issue counts of the alerts *)

Lemma alerts_ok_start ns : alerts_ok (start ns).
Proof.
  unfold alerts_ok, start. simpl.
  split; [apply NoDup_nil_2|]. split; [apply NoDup_nil_2|]. split; by intros.
Qed.

Lemma NoDup_note_down g r down : NoDup down.*1 → NoDup (note_down g r down).*1.
Proof. intros H. unfold note_down. by repeat apply NoDup_update; apply NoDup_setdefault. Qed.

Lemma NoDup_note_recovered g r recovered :
  NoDup recovered.*1 → NoDup (note_recovered g r recovered).*1.
Proof. intros H. unfold note_recovered. by apply NoDup_update, NoDup_setdefault. Qed.

Lemma down_counts_kept g r before after :
  row_added g r 1 before after →
  (∀ g' data, PyDict.get g' before = Some data → issues data = length (rows data)) →
  ∀ g' data, PyDict.get g' after = Some data → issues data = length (rows data).
Proof.
  intros [Hg Hother] Hinv g' data Hget.
  destruct (decide (g' = g)) as [->|Hne].
  - rewrite Hg in Hget. injection Hget as <-. simpl.
    rewrite length_app. simpl. f_equal.
    unfold entry_of. destruct (PyDict.get g before) as [old|] eqn:Hold; simpl; [|done].
    by apply (Hinv g).
  - rewrite Hother in Hget by done. by eapply Hinv.
Qed.

Lemma recovered_counts_kept g r before after :
  row_added g r 0 before after →
  (∀ g' data, PyDict.get g' before = Some data → issues data = 0) →
  ∀ g' data, PyDict.get g' after = Some data → issues data = 0.
Proof.
  intros [Hg Hother] Hinv g' data Hget.
  destruct (decide (g' = g)) as [->|Hne].
  - rewrite Hg in Hget. injection Hget as <-. simpl. rewrite Nat.add_0_r.
    unfold entry_of. destruct (PyDict.get g before) as [old|] eqn:Hold; simpl; [|done].
    by apply (Hinv g).
  - rewrite Hother in Hget by done. by eapply Hinv.
Qed.

Lemma alerts_ok_detect_row g d r : alerts_ok d → alerts_ok (detect_row g d r).
Proof.
  intros (Hnd & Hnr & Hd & Hr). unfold detect_row.
  destruct (nodes d !! node_key g r) as [prev|]; [|done].
  unfold alerts_ok. simpl. split; [|split; [|split]].
  - destruct (negb prev && is_issue r); [by apply NoDup_note_down|done].
  - destruct (prev && negb (is_issue r)); [by apply NoDup_note_recovered|done].
  - destruct (negb prev && is_issue r); [|done].
    eapply down_counts_kept; [apply note_down_added|done].
  - destruct (prev && negb (is_issue r)); [|done].
    eapply recovered_counts_kept; [apply note_recovered_added|done].
Qed.

Lemma alerts_ok_detect_rows l d : alerts_ok d → alerts_ok (detect_rows l d).
Proof.
  revert d. induction l as [|[g r] l IH]; intros d Hd; [done|].
  simpl. by apply IH, alerts_ok_detect_row.
Qed.

(** Every e-mail of [send_group_alerts] reports one group of its argument,
    with that group's issue count as the overall count. *)
Lemma elem_of_send_group_alerts prefix results e :
  Sent e ∈ send_group_alerts prefix results →
  ∃ g data to,
    (g, data) ∈ results
    ∧ rows data ≠ []
    ∧ PyDict.get g GROUP_EMAIL_MAP = Some to
    ∧ e = {| subject := prefix +:+ " [" +:+ g +:+ "]";
             body := build_report_html [(g, data)] (issues data);
             recipients := Some to |}.
Proof.
  unfold send_group_alerts. rewrite list_elem_of_bind.
  intros ([g data] & He & Hin). cbn [fst snd] in He.
  destruct (rows data) as [|r0 rs] eqn:Hrows; [by apply elem_of_nil in He|].
  destruct (PyDict.get g GROUP_EMAIL_MAP) as [[|t ts]|] eqn:Hto;
    try by apply elem_of_nil in He.
  apply list_elem_of_singleton in He. injection He as ->.
  exists g, data, (t :: ts). rewrite Hrows. done.
Qed.

(** C9.  After the detection loop every entry of [down_now] has as many
    issues as rows, and every entry of [recovered_now] has 0 issues whatever
    the number of its rows; so each report of the recovery alert shows 0
    issues, in its banner and for its group. *)
Theorem alert_issue_counts results ns st :
  let d := detect results (start ns) in
  (∀ g data, (g, data) ∈ down_now d → issues data = length (rows data))
  ∧ (∀ g data, (g, data) ∈ recovered_now d → issues data = 0)
  ∧ (∀ e, Sent e ∈ (immediate_recovery_alert (recovered_now d) st).2 →
       healthy (body e) = true
       ∧ shown_issues (body e) = 0
       ∧ ∃ g data, (g, data) ∈ recovered_now d
                   ∧ rows data ≠ []
                   ∧ sections (body e) = [ReportSection g 0 (rows data)]).
Proof.
  intros d.
  destruct (alerts_ok_detect_rows (flat_rows results) (start ns) (alerts_ok_start ns))
    as (Hnd & Hnr & Hd & Hr).
  rewrite <- detect_flat in Hnd, Hnr, Hd, Hr. fold d in Hnd, Hnr, Hd, Hr.
  assert (Hrec : ∀ g data, (g, data) ∈ recovered_now d → issues data = 0).
  { intros g data Hin. apply (Hr g). by apply get_elem_of_NoDup. }
  split; [|split; [done|]].
  - intros g data Hin. apply (Hd g). by apply get_elem_of_NoDup.
  - intros e He. unfold immediate_recovery_alert in He.
    destruct (recovered_now d) as [|x xs] eqn:Hx; [by apply elem_of_nil in He|].
    cbn [snd] in He. apply elem_of_app in He as [He|He].
    + apply elem_of_send_group_alerts in He as (g & data & to & Hin & Hrows & _ & ->).
      simpl. rewrite (Hrec g data Hin). eauto 10.
    + apply list_elem_of_singleton in He. discriminate.
Qed.

Lemma alert_issue_counts_witness :
  Sent recovery_mail
    ∈ (immediate_recovery_alert
         (recovered_now (detect recovery_results (start recovery_nodes)))
         {| node_state := recovery_nodes;
            last_daily_summary := "";
            last_daily_reminder := "" |}).2
  ∧ healthy (body recovery_mail) = true
  ∧ shown_issues (body recovery_mail) = 0.
Proof.
  assert (Hin : Sent recovery_mail
                  ∈ (immediate_recovery_alert
                       (recovered_now (detect recovery_results (start recovery_nodes)))
                       {| node_state := recovery_nodes;
                          last_daily_summary := "";
                          last_daily_reminder := "" |}).2).
  { apply list_elem_of_In. vm_compute. by left. }
  split; [exact Hin|].
  destruct (proj2 (proj2 (alert_issue_counts recovery_results recovery_nodes _))
              recovery_mail Hin) as (H1 & H2 & _).
  by split.
Defined.

(** ** The scheduler *)

Lemma isoformat_nonempty d : isoformat d ≠ "".
Proof.
  unfold isoformat. destruct (zero_pad 4 (year d)); simpl; discriminate.
Qed.

(** [send_group_alerts] logs nothing. *)
Lemma send_group_alerts_sent prefix results x :
  x ∈ send_group_alerts prefix results → ∃ e, x = Sent e.
Proof.
  unfold send_group_alerts. rewrite list_elem_of_bind.
  intros (g & Hx & _).
  destruct (rows g.2); [by apply elem_of_nil in Hx|].
  destruct (PyDict.get g.1 GROUP_EMAIL_MAP) as [[|t ts]|];
    try by apply elem_of_nil in Hx.
  apply list_elem_of_singleton in Hx. eauto.
Qed.

Lemma send_group_alerts_no_log prefix results m :
  Logged m ∉ send_group_alerts prefix results.
Proof. intros H. apply send_group_alerts_sent in H as [e He]. discriminate. Qed.

(** The events of each rule, as far as the log goes. *)
Lemma down_alert_log down st m :
  Logged m ∈ (immediate_down_alert down st).2 ↔
  down ≠ [] ∧ m = DownAlertSent (alerted_nodes down).
Proof.
  unfold immediate_down_alert. destruct down as [|x xs]; cbn [snd].
  - split; [by intros ?%elem_of_nil|by intros [? _]].
  - rewrite elem_of_app, list_elem_of_singleton. split.
    + intros [H|[= ->]]; [by apply send_group_alerts_no_log in H|done].
    + intros [_ ->]. by right.
Qed.

Lemma recovery_alert_log recovered st m :
  Logged m ∈ (immediate_recovery_alert recovered st).2 ↔
  recovered ≠ [] ∧ m = RecoveryAlertSent (alerted_nodes recovered).
Proof.
  unfold immediate_recovery_alert. destruct recovered as [|x xs]; cbn [snd].
  - split; [by intros ?%elem_of_nil|by intros [? _]].
  - rewrite elem_of_app, list_elem_of_singleton. split.
    + intros [H|[= ->]]; [by apply send_group_alerts_no_log in H|done].
    + intros [_ ->]. by right.
Qed.

Lemma daily_summary_fires hour today results overall st :
  daily_summary hour today results overall st
    = if decide (summary_due hour today st)
      then ({| node_state := node_state st;
               last_daily_summary := today;
               last_daily_reminder := last_daily_reminder st |},
            [ Sent {| subject := SUMMARY_SUBJECT;
                      body := build_report_html results overall;
                      recipients := None |};
              Logged DailySummarySent ])
      else (st, []).
Proof.
  unfold daily_summary, summary_due. rewrite <- bool_decide_and, bool_decide_decide.
  by destruct (decide _).
Qed.

Lemma daily_reminder_fires hour today results overall st :
  daily_reminder hour today results overall st
    = if decide (reminder_due hour today overall st)
      then ({| node_state := node_state st;
               last_daily_summary := last_daily_summary st;
               last_daily_reminder := today |},
            send_group_alerts REMINDER_PREFIX (issues_only results)
              ++ [Logged DailyReminderSent])
      else (st, []).
Proof.
  unfold daily_reminder, reminder_due. rewrite <- !bool_decide_and, bool_decide_decide.
  destruct (decide ((0 < overall ∧ hour = DAILY_REMINDER_HOUR)
                    ∧ last_daily_reminder st ≠ today)) as [H|H];
    destruct (decide _) as [H'|H']; try done; exfalso; tauto.
Qed.

Lemma daily_summary_log hour today results overall st m :
  Logged m ∈ (daily_summary hour today results overall st).2 ↔
  summary_due hour today st ∧ m = DailySummarySent.
Proof.
  rewrite daily_summary_fires. destruct (decide _) as [H|H]; cbn [snd].
  - rewrite elem_of_cons, list_elem_of_singleton. split.
    + intros [[=]|[= ->]]. done.
    + intros [_ ->]. by right.
  - split; [by intros ?%elem_of_nil|]. by intros [? _].
Qed.

Lemma daily_reminder_log hour today results overall st m :
  Logged m ∈ (daily_reminder hour today results overall st).2 ↔
  reminder_due hour today overall st ∧ m = DailyReminderSent.
Proof.
  rewrite daily_reminder_fires. destruct (decide _) as [H|H]; cbn [snd].
  - rewrite elem_of_app, list_elem_of_singleton. split.
    + intros [H'|[= ->]]; [by apply send_group_alerts_no_log in H'|done].
    + intros [_ ->]. by right.
  - split; [by intros ?%elem_of_nil|]. by intros [? _].
Qed.

(** The two immediate alerts leave the summary date alone, and the down alert
    leaves the whole state alone. *)
Lemma down_alert_state down st : (immediate_down_alert down st).1 = st.
Proof. unfold immediate_down_alert. by destruct down. Qed.

Lemma recovery_alert_state recovered st :
  (immediate_recovery_alert recovered st).1
    = match recovered with
      | [] => st
      | _ :: _ => {| node_state := node_state st;
                     last_daily_summary := last_daily_summary st;
                     last_daily_reminder := "" |}
      end.
Proof. unfold immediate_recovery_alert. by destruct recovered. Qed.

(** The state in which the reminder rule is evaluated. *)
Lemma before_reminder_date hour today results overall st :
  last_daily_reminder (before_reminder hour today results overall st)
    = match recovered_now (detect results (start (node_state st))) with
      | [] => last_daily_reminder st
      | _ :: _ => ""
      end.
Proof.
  unfold before_reminder.
  rewrite daily_summary_fires, recovery_alert_state, down_alert_state.
  destruct (recovered_now _); by destruct (decide _).
Qed.

Lemma before_reminder_summary_due hour today results st :
  summary_due hour today
    (immediate_recovery_alert (recovered_now (detect results (start (node_state st))))
       (immediate_down_alert (down_now (detect results (start (node_state st))))
          (detected results st)).1).1
  ↔ summary_due hour today st.
Proof.
  rewrite recovery_alert_state, down_alert_state. unfold summary_due.
  by destruct (recovered_now _).
Qed.

(** A run is the earlier rules followed by the reminder rule. *)
Lemma main_body_reminder hour today results overall st :
  ∃ earlier,
    (∀ x, x ∈ earlier → x ≠ Logged DailyReminderSent)
    ∧ main_body hour today results overall st
      = ((daily_reminder hour today results overall
            (before_reminder hour today results overall st)).1,
         earlier
           ++ (daily_reminder hour today results overall
                 (before_reminder hour today results overall st)).2).
Proof.
  unfold main_body, before_reminder.
  set (d := detect results (start (node_state st))).
  set (a1 := immediate_down_alert (down_now d) (detected results st)).
  set (a2 := immediate_recovery_alert (recovered_now d) a1.1).
  set (a3 := daily_summary hour today results overall a2.1).
  exists (a1.2 ++ a2.2 ++ a3.2). split.
  - intros x Hx ->. rewrite !elem_of_app in Hx. destruct Hx as [H|[H|H]].
    + apply down_alert_log in H as [_ [=]].
    + apply recovery_alert_log in H as [_ [=]].
    + apply daily_summary_log in H as [_ [=]].
  - by rewrite <- !app_assoc.
Qed.

(** The log of a whole run. *)
Lemma main_body_log hour today results overall st m :
  let d := detect results (start (node_state st)) in
  Logged m ∈ (main_body hour today results overall st).2 ↔
    (down_now d ≠ [] ∧ m = DownAlertSent (alerted_nodes (down_now d)))
    ∨ (recovered_now d ≠ [] ∧ m = RecoveryAlertSent (alerted_nodes (recovered_now d)))
    ∨ (summary_due hour today st ∧ m = DailySummarySent)
    ∨ (reminder_due hour today overall (before_reminder hour today results overall st)
       ∧ m = DailyReminderSent).
Proof.
  intros d. subst d. unfold main_body. cbv zeta. cbn [snd].
  rewrite !elem_of_app, down_alert_log, recovery_alert_log, daily_summary_log,
    daily_reminder_log.
  rewrite before_reminder_summary_due. done.
Qed.

Lemma main_body_reminder_date hour today results overall st :
  let s := before_reminder hour today results overall st in
  last_daily_reminder (main_body hour today results overall st).1
    = if decide (reminder_due hour today overall s) then today else last_daily_reminder s.
Proof.
  intros s. destruct (main_body_reminder hour today results overall st) as (? & _ & ->).
  cbn [fst]. fold s. rewrite daily_reminder_fires. by destruct (decide _).
Qed.

Lemma main_body_summary_date hour today results overall st :
  last_daily_summary (main_body hour today results overall st).1
    = if decide (summary_due hour today st) then today else last_daily_summary st.
Proof.
  unfold main_body. cbn [fst].
  rewrite daily_reminder_fires, daily_summary_fires.
  pose proof (before_reminder_summary_due hour today results st) as Hdue.
  rewrite recovery_alert_state, down_alert_state in *.
  destruct (recovered_now _); cbn [last_daily_summary] in *;
    destruct (decide (summary_due hour today _)) as [H1|H1];
    destruct (decide (summary_due hour today st)) as [H2|H2];
    try (exfalso; tauto); cbn [fst]; by destruct (decide (reminder_due _ _ _ _)).
Qed.

(** The groups and rows of the reminder's payload. *)
Lemma elem_of_issues_only results g data :
  (g, data) ∈ issues_only results ↔
  ∃ full, (g, full) ∈ results
          ∧ 0 < issues full
          ∧ issues data = issues full
          ∧ rows data = filter (λ r, is_issue r) (rows full).
Proof.
  unfold issues_only. rewrite list_elem_of_fmap. split.
  - intros ([g' full] & [= -> ->] & [Hpos Hin]%list_elem_of_filter). by exists full.
  - intros (full & Hin & Hpos & Hi & Hr). exists (g, full). split.
    + destruct data as [rs n]. simpl in *. by subst.
    + by apply list_elem_of_filter.
Qed.

(** ** Successive runs on one date *)

Lemma count_runs_cons p t ts :
  count_runs p (t :: ts) = (if p t then 1 else 0) + count_runs p ts.
Proof. reflexivity. Qed.

Lemma count_runs_tail p ts : count_runs p (tail ts) ≤ count_runs p ts.
Proof. destruct ts as [|t ts]; [done|]. rewrite count_runs_cons. simpl. lia. Qed.

Lemma summary_sent_main_body hour today results overall st :
  summary_sent (main_body hour today results overall st).2 = true
  ↔ summary_due hour today st.
Proof.
  unfold summary_sent. rewrite bool_decide_eq_true, main_body_log. split.
  - intros [[_ [=]]|[[_ [=]]|[[H _]|[_ [=]]]]]. done.
  - intros H. right. right. by left.
Qed.

Lemma reminder_sent_main_body hour today results overall st :
  reminder_sent (main_body hour today results overall st).2 = true
  ↔ reminder_due hour today overall (before_reminder hour today results overall st).
Proof.
  unfold reminder_sent. rewrite bool_decide_eq_true, main_body_log. split.
  - intros [[_ [=]]|[[_ [=]]|[[_ [=]]|[H _]]]]. done.
  - intros H. by repeat right.
Qed.

Lemma recovery_alerted_main_body hour today results overall st :
  recovery_alerted (main_body hour today results overall st).2 = true
  ↔ recovered_now (detect results (start (node_state st))) ≠ [].
Proof.
  unfold recovery_alerted. rewrite existsb_exists. split.
  - intros ([[]|] & Hin & Hx); try discriminate.
    apply list_elem_of_In, main_body_log in Hin.
    destruct Hin as [[_ [=]]|[[H _]|[[_ [=]]|[_ [=]]]]]. done.
  - intros H.
    exists (Logged (RecoveryAlertSent
                      (alerted_nodes (recovered_now (detect results (start (node_state st))))))).
    split; [|reflexivity].
    apply list_elem_of_In, main_body_log. right. left. done.
Qed.

(** Once the summary of the day is out, no later run sends it. *)
Lemma summary_once today runs st :
  (last_daily_summary st = today → count_runs summary_sent (traces today runs st) = 0)
  ∧ count_runs summary_sent (traces today runs st) ≤ 1.
Proof.
  revert st. induction runs as [|r runs IH]; intros st; [split; [done|cbn; lia]|].
  cbn [traces]. rewrite count_runs_cons.
  set (out := main_body (run_hour r) today (run_results r) (run_overall r) st).
  destruct (IH out.1) as [IH1 IH2].
  pose proof (summary_sent_main_body (run_hour r) today (run_results r) (run_overall r) st)
    as Hsent.
  pose proof (main_body_summary_date (run_hour r) today (run_results r) (run_overall r) st)
    as Hdate.
  fold out in Hsent, Hdate.
  destruct (decide (summary_due (run_hour r) today st)) as [Hdue|Hdue].
  - rewrite (proj2 Hsent Hdue). rewrite (IH1 Hdate). split; [|lia].
    intros Heq. by destruct Hdue as [_ Hne].
  - destruct (summary_sent out.2) eqn:Hs; [exfalso; by apply Hdue, Hsent|].
    split; [|lia]. intros Heq. apply IH1. by rewrite Hdate.
Qed.

(** Once the reminder of the day is out, each further one needs a run with a
    recovery. *)
Lemma reminder_rearmed today runs st :
  (last_daily_reminder st = today →
     count_runs reminder_sent (traces today runs st)
       ≤ count_runs recovery_alerted (traces today runs st))
  ∧ count_runs reminder_sent (traces today runs st)
      ≤ 1 + count_runs recovery_alerted (tail (traces today runs st)).
Proof.
  revert st. induction runs as [|r runs IH]; intros st; [split; cbn; lia|].
  cbn [traces tail]. rewrite !count_runs_cons.
  set (out := main_body (run_hour r) today (run_results r) (run_overall r) st).
  set (s := before_reminder (run_hour r) today (run_results r) (run_overall r) st).
  destruct (IH out.1) as [IH1 IH2].
  pose proof (count_runs_tail recovery_alerted (traces today runs out.1)) as Htail.
  pose proof (reminder_sent_main_body (run_hour r) today (run_results r) (run_overall r) st)
    as Hsent.
  pose proof (recovery_alerted_main_body (run_hour r) today (run_results r)
                (run_overall r) st) as Hrec.
  pose proof (main_body_reminder_date (run_hour r) today (run_results r) (run_overall r) st)
    as Hdate.
  pose proof (before_reminder_date (run_hour r) today (run_results r) (run_overall r) st)
    as Hgate.
  cbv zeta in Hdate. fold out in Hsent, Hrec, Hdate. fold s in Hsent, Hdate, Hgate.
  destruct (decide (reminder_due (run_hour r) today (run_overall r) s)) as [Hdue|Hdue].
  - rewrite (proj2 Hsent Hdue). specialize (IH1 Hdate). split; [|lia].
    intros Heq. destruct (recovery_alerted out.2) eqn:Hr; [lia|].
    exfalso. destruct Hdue as (_ & _ & Hne). apply Hne. rewrite Hgate.
    destruct (recovered_now _) eqn:Hx; [done|].
    assert (Hf : false = true) by (by apply Hrec). discriminate.
  - destruct (reminder_sent out.2) eqn:Hs; [exfalso; by apply Hdue, Hsent|].
    split; [|lia]. intros Heq.
    destruct (recovery_alerted out.2) eqn:Hr; [lia|].
    assert (Hkeep : last_daily_reminder out.1 = today).
    { rewrite Hdate, Hgate. destruct (recovered_now _) eqn:Hx; [done|].
      assert (Hf : false = true) by (by apply Hrec). discriminate. }
    specialize (IH1 Hkeep). lia.
Qed.

(** C3, amended.  Over any sequence of runs on one date at most one run
    sends the daily summary.  The daily reminder is sent by at most one run
    more than there are runs, after the first, in which a node recovered:
    a recovery clears the stored reminder date, so the next run at the
    reminder hour with issues outstanding sends the reminder again.  Without
    such a recovery at most one run sends it. *)
Theorem daily_notifications_per_date today runs st :
  let ts := traces today runs st in
  count_runs summary_sent ts ≤ 1
  ∧ count_runs reminder_sent ts ≤ 1 + count_runs recovery_alerted (tail ts)
  ∧ (count_runs recovery_alerted (tail ts) = 0 → count_runs reminder_sent ts ≤ 1).
Proof.
  intros ts. subst ts.
  pose proof (proj2 (summary_once today runs st)) as Hs.
  pose proof (proj2 (reminder_rearmed today runs st)) as Hr.
  split; [done|]. split; [done|]. intros H0. lia.
Qed.

Lemma daily_notifications_per_date_witness :
  count_runs recovery_alerted
    (tail (traces (isoformat may_day)
             [ {| run_hour := 10; run_results := outage_results; run_overall := 2 |};
               {| run_hour := 10; run_results := outage_results; run_overall := 2 |} ]
             outage_state)) = 0
  ∧ count_runs reminder_sent
      (traces (isoformat may_day)
         [ {| run_hour := 10; run_results := outage_results; run_overall := 2 |};
           {| run_hour := 10; run_results := outage_results; run_overall := 2 |} ]
         outage_state) ≤ 1.
Proof.
  assert (H : count_runs recovery_alerted
                (tail (traces (isoformat may_day)
                   [ {| run_hour := 10; run_results := outage_results; run_overall := 2 |};
                     {| run_hour := 10; run_results := outage_results; run_overall := 2 |} ]
                   outage_state)) = 0)
    by (vm_compute; reflexivity).
  split; [exact H|].
  exact (proj2 (proj2 (daily_notifications_per_date _ _ _)) H).
Defined.

(** Counterexample to C3 as written, for the reminder: the two runs of
    [reminder_hour_runs] are both at the reminder hour of the same date with
    issues outstanding, and both send the daily reminder, because [nis1]
    recovers at the second. *)
Lemma daily_notifications_per_date_counterexample :
  Forall (λ r, run_hour r = DAILY_REMINDER_HOUR ∧ 0 < run_overall r) reminder_hour_runs
  ∧ count_runs reminder_sent (traces (isoformat may_day) reminder_hour_runs outage_state)
    = 2.
Proof.
  split.
  - repeat constructor.
  - vm_compute. reflexivity.
Qed.

(** ** State store *)

(** Back-filling keeps every field the document has and gives each missing
    default field its default. *)
Lemma get_back_fill k defaults data :
  PyDict.get k (back_fill defaults data)
    = match PyDict.get k data with
      | Some v => Some v
      | None => PyDict.get k defaults
      end.
Proof.
  unfold back_fill. revert data.
  induction defaults as [|[k0 v0] defaults IH]; intros data; simpl.
  - by destruct (PyDict.get k data).
  - rewrite IH. destruct (decide (k0 = k)) as [->|Hne].
    + rewrite get_setdefault_eq. by destruct (PyDict.get k data).
    + by rewrite get_setdefault_ne.
Qed.

(** C8.  [load_state] returns the fresh default state (an empty node map and
    two empty date strings) and writes it to the file at once when the file
    does not exist or its text does not parse.  When the text parses, each of
    the three default fields the document lacks has its default in the
    returned state and each field it has is kept; a parsed object is returned
    back-filled and the file is left as it is, while a parsed value that is
    not an object is replaced by the fresh default like an unparsable text. *)
Theorem load_state_defaults json_loads json_dumps file :
  let fresh := (PDict default_state, Some (json_dumps (PDict default_state))) in
  let loaded := load_state json_loads json_dumps file in
  (field "node_state" fresh.1 = Some (PDict [])
   ∧ field "last_daily_summary" fresh.1 = Some (PStr "")
   ∧ field "last_daily_reminder" fresh.1 = Some (PStr ""))
  ∧ (file = None → loaded = fresh)
  ∧ (∀ text, file = Some text → json_loads text = None → loaded = fresh)
  ∧ (∀ text v, file = Some text → json_loads text = Some v →
       ∀ k dv, PyDict.get k default_state = Some dv →
               field k loaded.1 = Some (default dv (field k v)))
  ∧ (∀ text data, file = Some text → json_loads text = Some (PDict data) →
       loaded.2 = file
       ∧ ∃ d, loaded.1 = PDict d
              ∧ ∀ k, PyDict.get k d = match PyDict.get k data with
                                      | Some v => Some v
                                      | None => PyDict.get k default_state
                                      end)
  ∧ (∀ text v, file = Some text → json_loads text = Some v →
       (∀ data, v ≠ PDict data) → loaded = fresh).
Proof.
  intros fresh loaded. subst fresh loaded.
  split; [done|]. split; [by intros ->|]. split; [|split; [|split]].
  - intros text -> Hparse. unfold load_state. by rewrite Hparse.
  - intros text v -> Hparse k dv Hk. unfold load_state. rewrite Hparse.
    destruct v as [| | | | | |data]; cbn [fst field]; try (rewrite Hk; reflexivity).
    rewrite get_back_fill. destruct (PyDict.get k data); [reflexivity|].
    rewrite Hk. reflexivity.
  - intros text data -> Hparse. unfold load_state. rewrite Hparse. cbn [fst snd].
    split; [done|]. exists (back_fill default_state data). split; [done|].
    intros k. apply get_back_fill.
  - intros text v -> Hparse Hobj. unfold load_state. rewrite Hparse.
    destruct v; try done. by destruct (Hobj d).
Qed.

Lemma load_state_defaults_witness :
  sample_json_loads "{}" = Some (PDict [])
  ∧ sample_json_loads "{ state" = None
  ∧ load_state sample_json_loads sample_json_dumps (Some "{ state")
    = (PDict default_state, Some (sample_json_dumps (PDict default_state)))
  ∧ field "node_state" (load_state sample_json_loads sample_json_dumps (Some "{}")).1
    = Some (PDict []).
Proof.
  assert (H1 : sample_json_loads "{}" = Some (PDict [])) by reflexivity.
  assert (H2 : sample_json_loads "{ state" = None) by reflexivity.
  split; [exact H1|]. split; [exact H2|]. split.
  - exact (proj1 (proj2 (proj2
             (load_state_defaults sample_json_loads sample_json_dumps (Some "{ state"))))
             "{ state" eq_refl H2).
  - exact (proj1 (proj2 (proj2 (proj2
             (load_state_defaults sample_json_loads sample_json_dumps (Some "{}")))))
             "{}" (PDict []) eq_refl H1 "node_state" (PDict []) eq_refl).
Defined.

(** * Further properties *)

(** ** The check orchestrator *)

Section OrchestratorFacts.
Variable load_config : string → string + list entry.
Variable ping_check : string → nat → bool * string.
Variable ssh_check : string → nat → bool * string.
Variable update_status_files : string → string → bool → string * string.

Let check := check_entry ping_check ssh_check update_status_files.

Lemma check_group_from acc (nodes : list entry) :
  let data :=
    fold_left
      (λ (a : group_data) (e : entry),
         {| rows := rows a ++ [check e];
            issues := if is_issue (check e) then issues a + 1 else issues a |})
      nodes acc in
  rows data = rows acc ++ (check <$> nodes)
  ∧ issues data = issues acc + length (filter (λ r, is_issue r) (check <$> nodes)).
Proof.
  cbv zeta. revert acc. induction nodes as [|e nodes IH]; intros acc.
  - cbn. by rewrite app_nil_r, Nat.add_0_r.
  - cbn [fold_left]. destruct (IH {| rows := rows acc ++ [check e];
                                     issues := if is_issue (check e)
                                               then issues acc + 1 else issues acc |})
      as [IHr IHi].
    rewrite IHr, IHi. cbn [rows issues]. rewrite fmap_cons, filter_cons.
    rewrite <- app_assoc. split; [done|].
    destruct (is_issue (check e)) eqn:Hi.
    + rewrite decide_True by done. cbn [length]. lia.
    + rewrite decide_False by (by intros ?). lia.
Qed.

Lemma check_group_shape (nodes : list entry) :
  rows (check_group ping_check ssh_check update_status_files nodes) = check <$> nodes
  ∧ issues (check_group ping_check ssh_check update_status_files nodes)
    = length (filter (λ r, is_issue r) (check <$> nodes)).
Proof.
  unfold check_group.
  destruct (check_group_from {| rows := []; issues := 0 |} nodes) as [Hr Hi].
  cbn [rows issues app] in Hr, Hi. by fold check.
Qed.

(** X1.  A group's result has one row per configured node, in the order of
    the configuration, and its issue count is the number of impaired rows. *)
Theorem check_group_counts (nodes : list entry) :
  let data := check_group ping_check ssh_check update_status_files nodes in
  rows data = check <$> nodes
  ∧ length (rows data) = length nodes
  ∧ issues data = length (filter (λ r, is_issue r) (rows data))
  ∧ issues data ≤ length nodes.
Proof.
  intros data. subst data. destruct (check_group_shape nodes) as [Hr Hi].
  rewrite Hr, Hi.
  split; [done|]. split; [by rewrite length_fmap|]. split; [done|].
  rewrite <- (length_fmap check nodes). apply length_filter.
Qed.

Lemma impaired_tagged g (l : list row) :
  length (filter (λ gr : string * row, is_issue gr.2) ((λ r, (g, r)) <$> l))
    = length (filter (λ r, is_issue r) l).
Proof.
  induction l as [|r l IH]; [done|].
  rewrite fmap_cons, !filter_cons.
  repeat case_decide; cbn [snd length] in *; try done; by rewrite IH.
Qed.

(** The impaired rows of a run, group by group. *)
Lemma impaired_flat_rows results :
  (∀ g data, (g, data) ∈ results →
     issues data = length (filter (λ r, is_issue r) (rows data))) →
  sum_list (issues <$> PyDict.values results) = length (impaired (flat_rows results)).
Proof.
  unfold impaired, flat_rows, PyDict.values.
  induction results as [|[g data] results IH]; intros Hcount; [done|].
  rewrite !fmap_cons, bind_cons, filter_app, length_app. cbn [sum_list snd fst].
  rewrite IH by (intros g' d' Hin; apply (Hcount g'); by right).
  f_equal. rewrite (Hcount g data) by left. by rewrite impaired_tagged.
Qed.

Lemma run_checks_once_shape :
  let out := run_checks_once load_config ping_check ssh_check update_status_files in
  out.1.1 = (λ gn, (gn.1, check_group ping_check ssh_check update_status_files gn.2))
              <$> loaded_groups load_config
  ∧ out.1.2 = sum_list (issues <$> PyDict.values out.1.1)
  ∧ NoDup out.1.1.*1
  ∧ (∀ g, g ∈ out.1.1.*1 → g ∈ GROUPS.*1)
  ∧ out.2 = load_line load_config <$> GROUPS.
Proof.
  unfold run_checks_once, loaded_groups, load_line, GROUPS.
  cbn [fold_left omap list_omap fmap list_fmap fst snd].
  destruct (load_config "config/cluster_nodes.json");
    destruct (load_config "config/dgx_nodes.json");
    destruct (load_config "config/license_servers.json");
    destruct (load_config "config/nis_servers.json");
    cbn; repeat (rewrite decide_False by discriminate; cbn);
    (split; [reflexivity|]);
    (split; [lia|]);
    (split; [apply (bool_decide_unpack _); vm_compute; exact I|]);
    (split; [|reflexivity]);
    intros g Hg%list_elem_of_In; apply list_elem_of_In; cbn in *;
    intuition (subst; auto 10).
Qed.

(** X2.  [run_checks_once] returns one entry for each group of [GROUPS]
    whose configuration loads, in that order and under distinct names, and
    none for a group whose configuration fails to load; it logs one line per
    group, the node count or the error. *)
Theorem run_checks_once_groups :
  let out := run_checks_once load_config ping_check ssh_check update_status_files in
  out.1.1 = (λ gn, (gn.1, check_group ping_check ssh_check update_status_files gn.2))
              <$> loaded_groups load_config
  ∧ NoDup out.1.1.*1
  ∧ (∀ g, g ∈ out.1.1.*1 → g ∈ GROUPS.*1)
  ∧ (∀ g cfg_path e, (g, cfg_path) ∈ GROUPS → load_config cfg_path = inl e →
       ¬ (g ∈ out.1.1.*1) ∧ Logged (LoadError cfg_path e) ∈ out.2)
  ∧ out.2 = load_line load_config <$> GROUPS.
Proof.
  intros out. destruct run_checks_once_shape as (Hres & _ & Hnd & Hsub & Hlog).
  fold out in Hres, Hnd, Hsub, Hlog.
  split; [done|]. split; [done|]. split; [done|]. split; [|done].
  intros g cfg_path e Hin Hfail. split.
  - rewrite Hres, <- list_fmap_compose. unfold loaded_groups.
    intros ([g' nodes] & -> & Hl)%list_elem_of_fmap. cbn [compose fst] in *.
    apply list_elem_of_omap in Hl as ([g0 p0] & Hin0 & Hsome). cbn [fst snd] in Hsome.
    destruct (load_config p0) as [|nodes0] eqn:Hp0; [done|].
    injection Hsome as -> ->.
    assert (p0 = cfg_path); [|congruence].
    revert Hin Hin0. unfold GROUPS. rewrite !list_elem_of_In. cbn.
    intuition congruence.
  - rewrite Hlog. apply list_elem_of_fmap. exists (g, cfg_path).
    unfold load_line. cbn [snd]. by rewrite Hfail.
Qed.

(** X3.  The total [run_checks_once] returns is the sum of the groups' issue
    counts and the number of impaired rows of the run; every group's count
    is the number of its impaired rows, so the total is 0 exactly when no
    row is impaired. *)
Theorem run_checks_once_total :
  let out := run_checks_once load_config ping_check ssh_check update_status_files in
  out.1.2 = sum_list (issues <$> PyDict.values out.1.1)
  ∧ (∀ g data, (g, data) ∈ out.1.1 →
       issues data = length (filter (λ r, is_issue r) (rows data)))
  ∧ out.1.2 = length (impaired (flat_rows out.1.1))
  ∧ (out.1.2 = 0 ↔ ∀ gr, gr ∈ flat_rows out.1.1 → is_issue gr.2 = false).
Proof.
  intros out. destruct run_checks_once_shape as (Hres & Hsum & _).
  fold out in Hres, Hsum.
  assert (Hcount : ∀ g data, (g, data) ∈ out.1.1 →
            issues data = length (filter (λ r, is_issue r) (rows data))).
  { intros g data Hin. rewrite Hres in Hin.
    apply list_elem_of_fmap in Hin as ([g' nodes] & [= -> ->] & _). cbn [snd].
    destruct (check_group_shape nodes) as [Hr Hi]. by rewrite Hi, Hr. }
  assert (Htotal : out.1.2 = length (impaired (flat_rows out.1.1))).
  { rewrite Hsum. by apply impaired_flat_rows. }
  split; [done|]. split; [done|]. split; [done|].
  rewrite Htotal. unfold impaired. split.
  - intros Hlen gr Hin. apply length_zero_iff_nil in Hlen.
    destruct (is_issue gr.2) eqn:Hi; [|done].
    assert (Hgr : gr ∈ filter (λ gr : string * row, is_issue gr.2) (flat_rows out.1.1)).
    { apply list_elem_of_filter. split; [by rewrite Hi|done]. }
    rewrite Hlen in Hgr. by apply elem_of_nil in Hgr.
  - intros Hnone. apply length_zero_iff_nil.
    destruct (filter _ _) as [|gr rest] eqn:Hf; [done|].
    assert (Hgr : gr ∈ filter (λ gr : string * row, is_issue gr.2) (flat_rows out.1.1)).
    { rewrite Hf. left. }
    apply list_elem_of_filter in Hgr as [Hi Hin]. rewrite (Hnone gr Hin) in Hi. done.
Qed.
End OrchestratorFacts.

(** ** The alerts of a run, exactly *)

Lemma row_added_rows g' r' bump before after g r :
  row_added g' r' bump before after →
  r ∈ rows (entry_of g after) ↔ r ∈ rows (entry_of g before) ∨ (g = g' ∧ r = r').
Proof.
  intros [Hg Hother]. unfold entry_of at 1.
  destruct (decide (g = g')) as [->|Hne].
  - rewrite Hg. cbn [default from_option id rows].
    rewrite elem_of_app, list_elem_of_singleton. split.
    + intros [?| ->]; [by left|by right].
    + intros [?|[_ ->]]; [by left|by right].
  - rewrite Hother by done. fold (entry_of g before). split; [by left|].
    intros [?|[? _]]; [done|by destruct Hne].
Qed.

Lemma detect_row_down g' d r' g r :
  r ∈ rows (entry_of g (down_now (detect_row g' d r'))) ↔
  r ∈ rows (entry_of g (down_now d))
  ∨ (g = g' ∧ r = r' ∧ nodes d !! node_key g r = Some false ∧ is_issue r = true).
Proof.
  unfold detect_row. destruct (nodes d !! node_key g' r') as [prev|] eqn:Hprev;
    cbn [down_now].
  - destruct prev, (is_issue r') eqn:Hi; cbn [negb andb];
      try (split; [by left|]; intros [?|(-> & -> & ? & ?)]; [done|congruence]).
    rewrite (row_added_rows g' r' 1 _ _ g r (note_down_added g' r' (down_now d))).
    split; intros [?|H]; try by left.
    + destruct H as [-> ->]. by right.
    + destruct H as (-> & -> & _). right. done.
  - split; [by left|]. intros [?|(-> & -> & ? & ?)]; [done|congruence].
Qed.

Lemma detect_row_recovered g' d r' g r :
  r ∈ rows (entry_of g (recovered_now (detect_row g' d r'))) ↔
  r ∈ rows (entry_of g (recovered_now d))
  ∨ (g = g' ∧ r = r' ∧ nodes d !! node_key g r = Some true ∧ is_issue r = false).
Proof.
  unfold detect_row. destruct (nodes d !! node_key g' r') as [prev|] eqn:Hprev;
    cbn [recovered_now].
  - destruct prev, (is_issue r') eqn:Hi; cbn [negb andb];
      try (split; [by left|]; intros [?|(-> & -> & ? & ?)]; [done|congruence]).
    rewrite (row_added_rows g' r' 0 _ _ g r (note_recovered_added g' r' (recovered_now d))).
    split; intros [?|H]; try by left.
    + destruct H as [-> ->]. by right.
    + destruct H as (-> & -> & _). right. done.
  - split; [by left|]. intros [?|(-> & -> & ? & ?)]; [done|congruence].
Qed.

(** A row is among a group's rows of [down_now] after the loop exactly when
    it was there before or the loop reached it, for that group, impaired and
    with the stored flag [false]; likewise for [recovered_now]. *)
Lemma detect_rows_alerts l d g r :
  (r ∈ rows (entry_of g (down_now (detect_rows l d))) ↔
   r ∈ rows (entry_of g (down_now d))
   ∨ ∃ pre post, l = pre ++ (g, r) :: post
                 ∧ nodes (detect_rows pre d) !! node_key g r = Some false
                 ∧ is_issue r = true)
  ∧ (r ∈ rows (entry_of g (recovered_now (detect_rows l d))) ↔
     r ∈ rows (entry_of g (recovered_now d))
     ∨ ∃ pre post, l = pre ++ (g, r) :: post
                   ∧ nodes (detect_rows pre d) !! node_key g r = Some true
                   ∧ is_issue r = false).
Proof.
  revert d. induction l as [|[g' r'] l IH]; intros d.
  - split; (split; [by left|]); intros [?|(pre & post & Heq & _)]; try done;
      by destruct pre.
  - cbn [detect_rows fold_left fst snd]. fold (detect_rows l (detect_row g' d r')).
    destruct (IH (detect_row g' d r')) as [IHd IHr].
    rewrite IHd, IHr, detect_row_down, detect_row_recovered. split; split.
    + intros [[?|(-> & -> & Hn & Hi)]|(pre & post & -> & Hn & Hi)].
      * by left.
      * right. by exists [], l.
      * right. by exists ((g', r') :: pre), post.
    + intros [?|(pre & post & Heq & Hn & Hi)]; [by left; left|].
      destruct pre as [|x pre]; simplify_eq/=.
      * left. by right.
      * right. by exists pre, post.
    + intros [[?|(-> & -> & Hn & Hi)]|(pre & post & -> & Hn & Hi)].
      * by left.
      * right. by exists [], l.
      * right. by exists ((g', r') :: pre), post.
    + intros [?|(pre & post & Heq & Hn & Hi)]; [by left; left|].
      destruct pre as [|x pre]; simplify_eq/=.
      * left. by right.
      * right. by exists pre, post.
Qed.

(** X4.  A row is among its group's rows of [down_now] at the end of a run
    exactly when the loop reached it impaired while the map held [false]
    under its key, and among the rows of [recovered_now] exactly when the
    loop reached it healthy while the map held [true].  So every row of the
    down alert is an impaired row of that group, every row of the recovery
    alert a healthy one, and no row is in both. *)
Theorem alerts_exactly results ns g r :
  let final := detect results (start ns) in
  (r ∈ rows (entry_of g (down_now final)) ↔
     ∃ pre post, flat_rows results = pre ++ (g, r) :: post
                 ∧ nodes (detect_rows pre (start ns)) !! node_key g r = Some false
                 ∧ is_issue r = true)
  ∧ (r ∈ rows (entry_of g (recovered_now final)) ↔
       ∃ pre post, flat_rows results = pre ++ (g, r) :: post
                   ∧ nodes (detect_rows pre (start ns)) !! node_key g r = Some true
                   ∧ is_issue r = false)
  ∧ (r ∈ rows (entry_of g (down_now final)) →
       (g, r) ∈ flat_rows results ∧ is_issue r = true)
  ∧ (r ∈ rows (entry_of g (recovered_now final)) →
       (g, r) ∈ flat_rows results ∧ is_issue r = false)
  ∧ ¬ (r ∈ rows (entry_of g (down_now final))
       ∧ r ∈ rows (entry_of g (recovered_now final))).
Proof.
  intros final. subst final. rewrite detect_flat.
  destruct (detect_rows_alerts (flat_rows results) (start ns) g r) as [Hd Hr].
  assert (Hd' : r ∈ rows (entry_of g (down_now (detect_rows (flat_rows results) (start ns))))
                ↔ ∃ pre post, flat_rows results = pre ++ (g, r) :: post
                    ∧ nodes (detect_rows pre (start ns)) !! node_key g r = Some false
                    ∧ is_issue r = true).
  { rewrite Hd. split; [|by right]. intros [H|H]; [|done].
    by apply elem_of_nil in H. }
  assert (Hr' : r ∈ rows (entry_of g (recovered_now (detect_rows (flat_rows results) (start ns))))
                ↔ ∃ pre post, flat_rows results = pre ++ (g, r) :: post
                    ∧ nodes (detect_rows pre (start ns)) !! node_key g r = Some true
                    ∧ is_issue r = false).
  { rewrite Hr. split; [|by right]. intros [H|H]; [|done].
    by apply elem_of_nil in H. }
  split; [done|]. split; [done|]. split; [|split].
  - intros (pre & post & -> & _ & Hi)%Hd'. split; [|done].
    apply elem_of_app. right. left.
  - intros (pre & post & -> & _ & Hi)%Hr'. split; [|done].
    apply elem_of_app. right. left.
  - intros [(? & ? & _ & _ & H1)%Hd' (? & ? & _ & _ & H2)%Hr']. congruence.
Qed.

Lemma NoDup_row_keys_split pre g r post :
  NoDup (row_keys (pre ++ (g, r) :: post)) →
  ∀ gr, gr ∈ pre → node_key gr.1 gr.2 ≠ node_key g r.
Proof.
  unfold row_keys. rewrite fmap_app, fmap_cons. cbn [fst snd].
  intros Hnd gr Hin Heq. apply NoDup_app in Hnd as (_ & Hdisj & _).
  apply (Hdisj (node_key g r)).
  - apply list_elem_of_fmap. by exists gr.
  - left.
Qed.

(** X5.  When the rows of a run have pairwise distinct keys, the alerts go
    by the persisted flags: a row is in its group's down alert exactly when
    it is impaired and the loaded map held [false] under its key, and in its
    group's recovery alert exactly when it is healthy and the loaded map held
    [true]. *)
Theorem alerts_by_persisted_flag results ns g r :
  NoDup (row_keys (flat_rows results)) →
  let final := detect results (start ns) in
  (r ∈ rows (entry_of g (down_now final)) ↔
     (g, r) ∈ flat_rows results ∧ ns !! node_key g r = Some false ∧ is_issue r = true)
  ∧ (r ∈ rows (entry_of g (recovered_now final)) ↔
       (g, r) ∈ flat_rows results ∧ ns !! node_key g r = Some true ∧ is_issue r = false).
Proof.
  intros Hnd final. subst final. rewrite detect_flat.
  destruct (detect_rows_alerts (flat_rows results) (start ns) g r) as [Hd Hr].
  rewrite Hd, Hr. split; split.
  - intros [H|(pre & post & Heq & Hn & Hi)]; [by apply elem_of_nil in H|].
    rewrite Heq in Hnd. rewrite nodes_detect_rows_other in Hn
      by (by apply (NoDup_row_keys_split pre g r post)).
    split; [|done]. rewrite Heq. apply elem_of_app. right. left.
  - intros (Hin & Hn & Hi). right.
    apply list_elem_of_split in Hin as (pre & post & Heq).
    exists pre, post. split; [done|]. split; [|done].
    rewrite Heq in Hnd. rewrite nodes_detect_rows_other
      by (by apply (NoDup_row_keys_split pre g r post)).
    done.
  - intros [H|(pre & post & Heq & Hn & Hi)]; [by apply elem_of_nil in H|].
    rewrite Heq in Hnd. rewrite nodes_detect_rows_other in Hn
      by (by apply (NoDup_row_keys_split pre g r post)).
    split; [|done]. rewrite Heq. apply elem_of_app. right. left.
  - intros (Hin & Hn & Hi). right.
    apply list_elem_of_split in Hin as (pre & post & Heq).
    exists pre, post. split; [done|]. split; [|done].
    rewrite Heq in Hnd. rewrite nodes_detect_rows_other
      by (by apply (NoDup_row_keys_split pre g r post)).
    done.
Qed.

Lemma alerts_by_persisted_flag_witness :
  NoDup (row_keys (flat_rows scenario_results))
  ∧ sample_row "n1" true
      ∈ rows (entry_of "G" (down_now (detect scenario_results (start scenario_nodes))))
  ∧ ¬ (sample_row "n2" false
         ∈ rows (entry_of "G"
                   (recovered_now (detect scenario_results (start scenario_nodes))))).
Proof.
  assert (H : NoDup (row_keys (flat_rows scenario_results))).
  { apply (bool_decide_unpack _). vm_compute. exact I. }
  split; [exact H|]. split.
  - apply (proj1 (alerts_by_persisted_flag scenario_results scenario_nodes "G"
                    (sample_row "n1" true) H)).
    split; [|split; reflexivity]. apply list_elem_of_In. cbn. by left.
  - intros Hin.
    apply (proj2 (alerts_by_persisted_flag scenario_results scenario_nodes "G"
                    (sample_row "n2" false) H)) in Hin as (_ & Hflag & _).
    vm_compute in Hflag. discriminate.
Defined.

Lemma detect_rows_new l d :
  NoDup (row_keys l) →
  (∀ gr, gr ∈ l → nodes d !! node_key gr.1 gr.2 = None) →
  down_now (detect_rows l d) = down_now d
  ∧ recovered_now (detect_rows l d) = recovered_now d.
Proof.
  revert d. induction l as [|[g r] l IH]; intros d Hnd Hnew; [done|].
  cbn [detect_rows fold_left fst snd]. fold (detect_rows l (detect_row g d r)).
  unfold row_keys in Hnd. rewrite fmap_cons in Hnd. cbn [fst snd] in Hnd.
  apply NoDup_cons in Hnd as [Hfresh Hnd].
  assert (Hr : nodes d !! node_key g r = None) by (apply (Hnew (g, r)); left).
  destruct (IH (detect_row g d r)) as [Hd Hrec]; [done| |].
  - intros gr Hgr. rewrite nodes_detect_row, lookup_insert_ne.
    + apply Hnew. by right.
    + intros Heq. apply Hfresh. rewrite Heq. apply list_elem_of_fmap. by exists gr.
  - rewrite Hd, Hrec. unfold detect_row. by rewrite Hr.
Qed.

(** X6.  A run all of whose rows are new to the node-state map, as in the
    first run from the default state, and have pairwise distinct keys sends
    no immediate alert whatever the probes found: [down_now] and
    [recovered_now] stay empty, and every row's flag is recorded. *)
Theorem new_rows_never_alert results ns :
  NoDup (row_keys (flat_rows results)) →
  (∀ gr, gr ∈ flat_rows results → ns !! node_key gr.1 gr.2 = None) →
  let final := detect results (start ns) in
  down_now final = []
  ∧ recovered_now final = []
  ∧ ∀ gr, gr ∈ flat_rows results →
          nodes final !! node_key gr.1 gr.2 = Some (is_issue gr.2).
Proof.
  intros Hnd Hnew final. subst final. rewrite detect_flat.
  destruct (detect_rows_new (flat_rows results) (start ns) Hnd Hnew) as [Hd Hr].
  split; [done|]. split; [done|].
  intros [g r] Hin. cbn [fst snd].
  apply list_elem_of_split in Hin as (pre & post & Heq). rewrite Heq in *.
  apply nodes_detect_rows_last. intros gr Hgr Hk.
  unfold row_keys in Hnd. rewrite fmap_app, fmap_cons in Hnd.
  apply NoDup_app in Hnd as (_ & _ & Hnd). apply NoDup_cons in Hnd as [Hfresh _].
  apply Hfresh. cbn [fst snd]. rewrite <- Hk. apply list_elem_of_fmap. by exists gr.
Qed.

Lemma new_rows_never_alert_witness :
  NoDup (row_keys (flat_rows scenario_results))
  ∧ down_now (detect scenario_results (start ∅)) = []
  ∧ recovered_now (detect scenario_results (start ∅)) = []
  ∧ nodes (detect scenario_results (start ∅)) !! "G:n1" = Some true.
Proof.
  assert (H : NoDup (row_keys (flat_rows scenario_results))).
  { apply (bool_decide_unpack _). vm_compute. exact I. }
  assert (Hnew : ∀ gr : string * row,
             gr ∈ flat_rows scenario_results →
             (∅ : gmap string bool) !! node_key gr.1 gr.2 = None).
  { intros gr _. apply lookup_empty. }
  destruct (new_rows_never_alert scenario_results ∅ H Hnew) as (Hd & Hr & Hn).
  split; [exact H|]. split; [exact Hd|]. split; [exact Hr|].
  apply (Hn ("G", sample_row "n1" true)). apply list_elem_of_In. cbn. by left.
Defined.

Lemma dom_detect_rows l d :
  dom (nodes (detect_rows l d)) = dom (nodes d) ∪ list_to_set (row_keys l).
Proof.
  revert d. induction l as [|[g r] l IH]; intros d.
  - cbn. by rewrite union_empty_r_L.
  - cbn [detect_rows fold_left fst snd]. fold (detect_rows l (detect_row g d r)).
    rewrite IH, nodes_detect_row, dom_insert_L.
    unfold row_keys. rewrite fmap_cons, list_to_set_cons. cbn [fst snd].
    by rewrite (union_comm_L {[node_key g r]} (dom (nodes d))), union_assoc_L.
Qed.

(** X7.  The keys of the node-state map after a run are those it had before
    together with the keys of the rows of the run, and a key that no row of
    the run has keeps its flag: a node that was not probed, for instance
    because its group's configuration did not load, is neither forgotten nor
    changed. *)
Theorem node_state_keys_after_run results ns :
  let final := detect results (start ns) in
  dom (nodes final) = dom ns ∪ list_to_set (row_keys (flat_rows results))
  ∧ ∀ k, ¬ (k ∈ row_keys (flat_rows results)) → nodes final !! k = ns !! k.
Proof.
  intros final. subst final. rewrite detect_flat. split.
  - apply dom_detect_rows.
  - intros k Hk. apply nodes_detect_rows_other. intros gr Hgr Heq. apply Hk.
    apply list_elem_of_fmap. by exists gr.
Qed.

(** ** The scheduler, rule by rule *)

(** X8.  A run without a transition in which neither daily rule is due sends
    nothing and logs nothing, and changes the state only by the node-state
    map of the detection loop; this is every such run at an hour other than
    the summary hour and the reminder hour. *)
Theorem quiet_run hour today results overall st :
  down_now (detect results (start (node_state st))) = [] →
  recovered_now (detect results (start (node_state st))) = [] →
  (¬ summary_due hour today st ∧ ¬ reminder_due hour today overall st
   ∨ hour ≠ DAILY_SUMMARY_HOUR ∧ hour ≠ DAILY_REMINDER_HOUR) →
  main_body hour today results overall st = (detected results st, []).
Proof.
  intros Hd Hr Hgates.
  assert (Hs : ¬ summary_due hour today st).
  { destruct Hgates as [[? _]|[? _]]; [done|]. by intros [? _]. }
  assert (Hm : ¬ reminder_due hour today overall st).
  { destruct Hgates as [[_ ?]|[_ ?]]; [done|]. by intros (_ & ? & _). }
  unfold main_body. rewrite Hd, Hr. cbn [immediate_down_alert immediate_recovery_alert fst snd].
  rewrite daily_summary_fires.
  assert (Hs' : ¬ summary_due hour today (detected results st)) by done.
  rewrite (decide_False _ _ Hs'). cbn [fst snd].
  rewrite daily_reminder_fires.
  assert (Hm' : ¬ reminder_due hour today overall (detected results st)) by done.
  by rewrite (decide_False _ _ Hm').
Qed.

Lemma quiet_run_witness :
  down_now (detect outage_results (start (node_state reminded_state))) = []
  ∧ recovered_now (detect outage_results (start (node_state reminded_state))) = []
  ∧ main_body 15 (isoformat may_day) outage_results 2 reminded_state
    = (detected outage_results reminded_state, []).
Proof.
  assert (H1 : down_now (detect outage_results (start (node_state reminded_state))) = [])
    by (vm_compute; reflexivity).
  assert (H2 : recovered_now (detect outage_results (start (node_state reminded_state)))
               = [])
    by (vm_compute; reflexivity).
  split; [exact H1|]. split; [exact H2|].
  apply (quiet_run 15 (isoformat may_day) outage_results 2 reminded_state H1 H2).
  right. split; discriminate.
Defined.

Lemma send_group_alerts_recipients prefix results e :
  Sent e ∈ send_group_alerts prefix results → recipients e ≠ None.
Proof.
  intros (g & data & to & _ & _ & _ & ->)%elem_of_send_group_alerts. done.
Qed.

(** X9.  A run sends the daily summary exactly when the hour is the summary
    hour and the loaded summary date is not today, whatever alerts the run
    sends before it.  The summary is one e-mail to the default recipients
    with the report of all groups and the overall issue count; the run then
    leaves today as the summary date, and otherwise leaves the date as it
    was.  No run sends both the summary and the reminder. *)
Theorem daily_summary_rule hour today results overall st :
  let out := main_body hour today results overall st in
  let mail := {| subject := SUMMARY_SUBJECT;
                 body := build_report_html results overall;
                 recipients := None |} in
  (Logged DailySummarySent ∈ out.2 ↔
     hour = DAILY_SUMMARY_HOUR ∧ last_daily_summary st ≠ today)
  ∧ (∀ e, Sent e ∈ out.2 ∧ recipients e = None ↔
          e = mail ∧ hour = DAILY_SUMMARY_HOUR ∧ last_daily_summary st ≠ today)
  ∧ last_daily_summary out.1
    = (if decide (hour = DAILY_SUMMARY_HOUR ∧ last_daily_summary st ≠ today)
       then today else last_daily_summary st)
  ∧ ¬ (Logged DailySummarySent ∈ out.2 ∧ Logged DailyReminderSent ∈ out.2).
Proof.
  intros out mail.
  assert (Hlog : Logged DailySummarySent ∈ out.2 ↔ summary_due hour today st).
  { subst out. rewrite main_body_log. split.
    - intros [[_ [=]]|[[_ [=]]|[[H _]|[_ [=]]]]]. done.
    - intros H. right. right. by left. }
  split; [done|]. split; [|split].
  - intros e. subst out. unfold main_body. cbn [snd]. rewrite !elem_of_app.
    set (d := detect results (start (node_state st))).
    set (a1 := immediate_down_alert (down_now d) (detected results st)).
    set (a2 := immediate_recovery_alert (recovered_now d) a1.1).
    assert (H1 : Sent e ∈ a1.2 → recipients e ≠ None).
    { subst a1. unfold immediate_down_alert. destruct (down_now d); cbn [snd].
      - by intros ?%elem_of_nil.
      - intros [H|H%list_elem_of_singleton]%elem_of_app; [|done].
        by eapply send_group_alerts_recipients. }
    assert (H2 : Sent e ∈ a2.2 → recipients e ≠ None).
    { subst a2. unfold immediate_recovery_alert. destruct (recovered_now d); cbn [snd].
      - by intros ?%elem_of_nil.
      - intros [H|H%list_elem_of_singleton]%elem_of_app; [|done].
        by eapply send_group_alerts_recipients. }
    pose proof (before_reminder_summary_due hour today results st) as Hdue.
    fold d in Hdue. fold a1 in Hdue. fold a2 in Hdue.
    rewrite daily_summary_fires, daily_reminder_fires.
    destruct (decide (summary_due hour today a2.1)) as [Hs|Hs]; cbn [fst snd].
    + destruct (decide (reminder_due _ _ _ _)) as [Hm|Hm]; cbn [snd].
      * destruct Hs as [Hh _], Hm as (_ & Hh' & _). rewrite Hh in Hh'. done.
      * split.
        -- intros [[H|[H|[H|H]]] Hnone].
           ++ by apply H1 in H.
           ++ by apply H2 in H.
           ++ apply elem_of_cons in H as [[= ->]|H].
              ** split; [done|]. by apply Hdue.
              ** apply list_elem_of_singleton in H. done.
           ++ by apply elem_of_nil in H.
        -- intros (-> & _). split; [|done]. right. right. left. left.
    + split.
      * intros [[H|[H|[H|H]]] Hnone].
        -- by apply H1 in H.
        -- by apply H2 in H.
        -- by apply elem_of_nil in H.
        -- destruct (decide (reminder_due _ _ _ _)); cbn [snd] in H.
           ++ apply elem_of_app in H as [H|H%list_elem_of_singleton]; [|done].
              by apply send_group_alerts_recipients in H.
           ++ by apply elem_of_nil in H.
      * intros (_ & Hh & Hl). destruct Hs. apply Hdue. done.
  - subst out. rewrite main_body_summary_date. unfold summary_due.
    by destruct (decide _).
  - intros [Hs Hm]. apply Hlog in Hs as [Hh _]. subst out.
    apply main_body_log in Hm as [[_ [=]]|[[_ [=]]|[[_ [=]]|[(_ & Hh' & _) _]]]].
    rewrite Hh in Hh'. done.
Qed.

(** X10.  Over the runs of one date the daily summary is sent exactly once
    when the stored summary date is not yet today and some run is at the
    summary hour, and not at all otherwise. *)
Theorem summary_exactly_once today runs st :
  count_runs summary_sent (traces today runs st)
    = if decide (last_daily_summary st ≠ today
                 ∧ Exists (λ r, run_hour r = DAILY_SUMMARY_HOUR) runs)
      then 1 else 0.
Proof.
  revert st. induction runs as [|r runs IH]; intros st.
  - cbn. rewrite decide_False; [done|]. intros [_ H]. by apply Exists_nil in H.
  - cbn [traces]. rewrite count_runs_cons, IH.
    set (out := main_body (run_hour r) today (run_results r) (run_overall r) st).
    pose proof (summary_sent_main_body (run_hour r) today (run_results r) (run_overall r) st)
      as Hsent.
    pose proof (main_body_summary_date (run_hour r) today (run_results r) (run_overall r) st)
      as Hdate.
    fold out in Hsent, Hdate. rewrite Hdate.
    destruct (decide (summary_due (run_hour r) today st)) as [Hdue|Hdue].
    + rewrite (proj2 Hsent Hdue). rewrite (decide_False (P := today ≠ today ∧ _));
        [|by intros [? _]].
      rewrite decide_True; [done|]. destruct Hdue as [Hh Hl]. split; [done|].
      by apply Exists_cons_hd.
    + destruct (summary_sent out.2) eqn:Hs; [exfalso; by apply Hdue, Hsent|].
      cbn [Nat.add]. apply decide_ext. rewrite Exists_cons. split.
      * intros [Hl He]. split; [done|]. by right.
      * intros [Hl [Hh|He]]; [|done]. destruct Hdue. by split.
Qed.

(** ** The immediate alerts *)

Lemma rows_nonempty_kept g r bump before after :
  row_added g r bump before after →
  (∀ g' data, PyDict.get g' before = Some data → rows data ≠ []) →
  ∀ g' data, PyDict.get g' after = Some data → rows data ≠ [].
Proof.
  intros [Hg Hother] Hinv g' data Hget.
  destruct (decide (g' = g)) as [->|Hne].
  - rewrite Hg in Hget. injection Hget as <-. cbn [rows].
    intros Heq. by apply app_eq_nil in Heq as [_ ?].
  - rewrite Hother in Hget by done. by eapply Hinv.
Qed.

Lemma rows_nonempty_detect_rows l d :
  (∀ g data, PyDict.get g (down_now d) = Some data → rows data ≠ []) →
  (∀ g data, PyDict.get g (recovered_now d) = Some data → rows data ≠ []) →
  (∀ g data, PyDict.get g (down_now (detect_rows l d)) = Some data → rows data ≠ [])
  ∧ (∀ g data, PyDict.get g (recovered_now (detect_rows l d)) = Some data →
       rows data ≠ []).
Proof.
  revert d. induction l as [|[g r] l IH]; intros d Hd Hr; [done|].
  cbn [detect_rows fold_left fst snd]. fold (detect_rows l (detect_row g d r)).
  apply IH; unfold detect_row; destruct (nodes d !! node_key g r) as [prev|];
    cbn [down_now recovered_now]; try done.
  - destruct (negb prev && is_issue r); [|done].
    eapply rows_nonempty_kept; [apply note_down_added|done].
  - destruct (prev && negb (is_issue r)); [|done].
    eapply rows_nonempty_kept; [apply note_recovered_added|done].
Qed.

Lemma alerted_nodes_positive (d : list (string * group_data)) :
  NoDup d.*1 →
  (∀ g data, PyDict.get g d = Some data → rows data ≠ []) →
  d ≠ [] → 0 < alerted_nodes d.
Proof.
  intros Hnd Hrows Hne. destruct d as [|[g data] d]; [done|].
  assert (Hdata : rows data ≠ []).
  { apply (Hrows g). apply get_elem_of_NoDup; [done|left]. }
  unfold alerted_nodes, PyDict.values. rewrite !fmap_cons. cbn [sum_list snd].
  destruct (rows data) as [|r0 rs]; [done|]. cbn [length].
  apply Nat.lt_0_succ.
Qed.

(** X11.  The immediate alerts are not gated by hour or date: a run logs a
    down alert exactly when its [down_now] is not empty and a recovery alert
    exactly when its [recovered_now] is not empty, each with the number of
    rows alerted, which is at least 1; for the down alert that number is the
    sum of the issue counts its reports show.  Every group entry of either
    alert has at least one row, so [send_group_alerts] skips none of them for
    being empty. *)
Theorem immediate_alerts_rule hour today results overall st :
  let d := detect results (start (node_state st)) in
  let out := main_body hour today results overall st in
  (∀ n, Logged (DownAlertSent n) ∈ out.2 ↔
        down_now d ≠ [] ∧ n = alerted_nodes (down_now d))
  ∧ (∀ n, Logged (RecoveryAlertSent n) ∈ out.2 ↔
          recovered_now d ≠ [] ∧ n = alerted_nodes (recovered_now d))
  ∧ (down_now d ≠ [] → 0 < alerted_nodes (down_now d))
  ∧ (recovered_now d ≠ [] → 0 < alerted_nodes (recovered_now d))
  ∧ alerted_nodes (down_now d) = sum_list (issues <$> PyDict.values (down_now d))
  ∧ (∀ g data, (g, data) ∈ down_now d ∨ (g, data) ∈ recovered_now d → rows data ≠ []).
Proof.
  intros d out.
  destruct (alerts_ok_detect_rows (flat_rows results) (start (node_state st))
              (alerts_ok_start _)) as (Hnd & Hnr & Hcount & _).
  destruct (rows_nonempty_detect_rows (flat_rows results) (start (node_state st)))
    as [Hd Hr]; [done|done|].
  rewrite <- detect_flat in Hnd, Hnr, Hcount, Hd, Hr.
  fold d in Hnd, Hnr, Hcount, Hd, Hr.
  split; [|split; [|split; [|split; [|split]]]].
  - intros n. subst out. rewrite main_body_log. fold d. split.
    + intros [[? [= ->]]|[[_ [=]]|[[_ [=]]|[_ [=]]]]]. done.
    + intros [? ->]. by left.
  - intros n. subst out. rewrite main_body_log. fold d. split.
    + intros [[_ [=]]|[[? [= ->]]|[[_ [=]]|[_ [=]]]]]. done.
    + intros [? ->]. right. by left.
  - by apply alerted_nodes_positive.
  - by apply alerted_nodes_positive.
  - unfold alerted_nodes. f_equal. apply list_fmap_ext.
    intros i data Hi. symmetry.
    apply list_elem_of_lookup_2 in Hi. unfold PyDict.values in Hi.
    apply list_elem_of_fmap in Hi as ([g data'] & -> & Hin). cbn [snd].
    apply (Hcount g). by apply get_elem_of_NoDup.
  - intros g data [Hin|Hin].
    + apply (Hd g). by apply get_elem_of_NoDup.
    + apply (Hr g). by apply get_elem_of_NoDup.
Qed.

(** ** A run in which no configuration loads *)

Lemma omap_none {A B} (f : A → option B) (l : list A) :
  (∀ x, x ∈ l → f x = None) → omap f l = [].
Proof.
  induction l as [|x l IH]; intros Hnone; [done|].
  cbn. rewrite (Hnone x) by left. apply IH. intros y Hy. apply Hnone. by right.
Qed.

(** X12.  When no group's configuration loads, a run has no rows and no
    issues: it leaves the node-state map and the reminder date as they were
    and sends no alert and no reminder, and what it sends at the summary hour
    is a summary that reports all systems healthy with no node at all. *)
Theorem no_config_loads load_config ping_check ssh_check update_status_files hour today st :
  (∀ g, g ∈ GROUPS → ∃ e, load_config g.2 = inl e) →
  let checks := run_checks_once load_config ping_check ssh_check update_status_files in
  let out := main load_config ping_check ssh_check update_status_files hour today st in
  let mail := {| subject := SUMMARY_SUBJECT;
                 body := {| healthy := true; shown_issues := 0;
                            total_nodes := 0; sections := [] |};
                 recipients := None |} in
  checks.1 = ([], 0)
  ∧ node_state out.1 = node_state st
  ∧ last_daily_reminder out.1 = last_daily_reminder st
  ∧ (∀ e, Sent e ∈ out.2 ↔
          e = mail ∧ hour = DAILY_SUMMARY_HOUR ∧ last_daily_summary st ≠ isoformat today).
Proof.
  intros Hfail checks out mail.
  assert (Hnone : loaded_groups load_config = []).
  { unfold loaded_groups. apply omap_none. intros g Hg.
    destruct (Hfail g Hg) as [e He]. by rewrite He. }
  destruct (run_checks_once_shape load_config ping_check ssh_check update_status_files)
    as (Hres & Hsum & _ & _ & Hlog).
  fold checks in Hres, Hsum, Hlog. rewrite Hnone in Hres.
  change (checks.1.1 = []) in Hres. rewrite Hres in Hsum.
  change (checks.1.2 = 0) in Hsum.
  assert (Hchecks : checks.1 = ([], 0)).
  { clearbody checks. destruct checks as [[res tot] logs]. cbn in *. by subst. }
  split; [done|]. subst out. unfold main. fold checks. rewrite Hres, Hsum.
  cbn [fst snd]. unfold main_body. cbn [detect fold_left start down_now recovered_now
    immediate_down_alert immediate_recovery_alert fst snd app].
  rewrite daily_summary_fires, daily_reminder_fires.
  rewrite (decide_False (P := reminder_due _ _ 0 _)) by (intros [H _]; lia).
  destruct (decide (summary_due hour (isoformat today) (detected [] st))) as [Hs|Hs];
    cbn [fst snd node_state last_daily_reminder detected detect fold_left start nodes].
  - split; [done|]. split; [done|]. intros e. rewrite Hlog. split.
    + intros [[=]|H]%elem_of_cons. rewrite !elem_of_app in H.
      destruct H as [H|[H|H]].
      * apply list_elem_of_fmap in H as (g & Hg & _). unfold load_line in Hg.
        by destruct (load_config g.2).
      * apply elem_of_cons in H as [[= ->]|H%list_elem_of_singleton]; [|done].
        split; [done|]. apply Hs.
      * by apply elem_of_nil in H.
    + intros (-> & _). right. apply elem_of_app. right. left.
  - split; [done|]. split; [done|]. intros e. rewrite Hlog. split.
    + intros [[=]|H]%elem_of_cons. rewrite !elem_of_app in H.
      destruct H as [H|[H|H]]; try by apply elem_of_nil in H.
      apply list_elem_of_fmap in H as (g & Hg & _). unfold load_line in Hg.
      by destruct (load_config g.2).
    + intros (_ & Hh & Hl). destruct Hs. by split.
Qed.

Lemma no_config_loads_witness :
  (∀ g : string * string, g ∈ GROUPS → ∃ e, failing_load_config g.2 = inl e)
  ∧ node_state
      (main failing_load_config sample_ping_check sample_ssh_check
         sample_update_status_files 0 may_day outage_state).1
    = node_state outage_state.
Proof.
  assert (H : ∀ g : string * string,
            g ∈ GROUPS → ∃ e, failing_load_config g.2 = inl e).
  { intros g _. by exists "No such file". }
  split; [exact H|].
  exact (proj1 (proj2 (no_config_loads failing_load_config sample_ping_check
                         sample_ssh_check sample_update_status_files 0 may_day
                         outage_state H))).
Defined.

(** ** Loading the state *)

Lemma filter_ext_in {A} (P Q : A → Prop) `{!∀ x, Decision (P x)} `{!∀ x, Decision (Q x)}
    (l : list A) :
  (∀ x, x ∈ l → P x ↔ Q x) → filter P l = filter Q l.
Proof.
  induction l as [|x l IH]; intros Hext; [done|].
  rewrite !filter_cons. rewrite IH by (intros y Hy; apply Hext; by right).
  destruct (decide (P x)) as [HP|HP], (decide (Q x)) as [HQ|HQ]; try done.
  - destruct HQ. apply Hext; [left|done].
  - destruct HP. apply Hext; [left|done].
Qed.

Lemma back_fill_appends defaults data :
  NoDup defaults.*1 →
  back_fill defaults data
    = data ++ filter (λ kv, ¬ is_Some (PyDict.get kv.1 data)) defaults.
Proof.
  unfold back_fill. revert data.
  induction defaults as [|[k0 v0] defaults IH]; intros data Hnd.
  - cbn. by rewrite app_nil_r.
  - rewrite fmap_cons in Hnd. apply NoDup_cons in Hnd as [Hfresh Hnd].
    cbn [fold_left fst snd]. rewrite IH by done. unfold PyDict.setdefault.
    destruct (PyDict.get k0 data) as [v|] eqn:Hget.
    + rewrite filter_cons_False; [done|]. cbn [fst]. rewrite Hget.
      intros H. apply H. by eexists.
    + rewrite (filter_cons_True _ (k0, v0)).
      2:{ cbn [fst]. rewrite Hget. by intros [? ?]. }
      rewrite <- app_assoc. cbn [app]. do 2 f_equal.
      apply filter_ext_in. intros [k v] Hin. cbn [fst].
      rewrite get_app. destruct (PyDict.get k data); [done|].
      cbn. rewrite decide_False; [done|]. intros ->. apply Hfresh.
      apply list_elem_of_fmap. by exists (k, v).
Qed.

Lemma filter_none {A} (P : A → Prop) `{!∀ x, Decision (P x)} (l : list A) :
  (∀ x, x ∈ l → ¬ P x) → filter P l = [].
Proof.
  induction l as [|x l IH]; intros Hnone; [done|].
  rewrite filter_cons_False by (apply Hnone; left).
  apply IH. intros y Hy. apply Hnone. by right.
Qed.

Lemma get_is_Some_elem_of {V} k (v : V) (d : list (string * V)) :
  (k, v) ∈ d → is_Some (PyDict.get k d).
Proof.
  induction d as [|[k' v'] d IH]; [by intros ?%elem_of_nil|].
  cbn. destruct (decide (k' = k)); [by eexists|].
  intros [[= -> ->]|Hin]%elem_of_cons; [done|by apply IH].
Qed.

(** X13.  Loading a state file whose text parses as an object keeps every
    field of the object in place, appends the default fields it lacks in the
    order of the defaults, and does not write the file.  An object that has
    the three fields is returned as it is, whatever their values, and what
    is returned needs no further back-filling. *)
Theorem load_state_keeps_document json_loads json_dumps text data :
  json_loads text = Some (PDict data) →
  load_state json_loads json_dumps (Some text)
    = (PDict (data ++ missing_defaults data), Some text)
  ∧ ((∀ k, k ∈ default_state.*1 → is_Some (PyDict.get k data)) →
       load_state json_loads json_dumps (Some text) = (PDict data, Some text))
  ∧ back_fill default_state (data ++ missing_defaults data)
    = data ++ missing_defaults data.
Proof.
  intros Hparse.
  assert (Hnd : NoDup default_state.*1).
  { apply (bool_decide_unpack _). vm_compute. exact I. }
  assert (Hload : load_state json_loads json_dumps (Some text)
                  = (PDict (data ++ missing_defaults data), Some text)).
  { unfold load_state. rewrite Hparse. by rewrite back_fill_appends. }
  split; [done|]. split.
  - intros Hall. rewrite Hload. unfold missing_defaults.
    rewrite filter_none; [by rewrite app_nil_r|].
    intros [k v] Hin Hmiss. apply Hmiss, Hall. cbn [fst].
    apply list_elem_of_fmap. by exists (k, v).
  - rewrite back_fill_appends by done.
    rewrite filter_none; [by rewrite app_nil_r|].
    intros [k v] Hin Hmiss. apply Hmiss. cbn [fst]. rewrite get_app.
    destruct (PyDict.get k data) as [w|] eqn:Hget; [by eexists|].
    apply (get_is_Some_elem_of k v). unfold missing_defaults.
    apply list_elem_of_filter. split; [|done]. cbn [fst]. rewrite Hget.
    by intros [? ?].
Qed.

Lemma load_state_keeps_document_witness :
  load_state (λ _, Some (PDict partial_document)) sample_json_dumps (Some "state")
    = (PDict (partial_document ++ [("last_daily_reminder", PStr "")]), Some "state").
Proof.
  exact (proj1 (load_state_keeps_document (λ _, Some (PDict partial_document))
                  sample_json_dumps "state" partial_document eq_refl)).
Defined.

(** X14.  Provided the JSON library reads back the default state it wrote,
    loading is stable: loading again from the file the first load left
    returns the same state and leaves the same file, also after a missing or
    unreadable file was replaced by the default; and the default the
    start-up block writes for a missing file is the state [main] then
    loads. *)
Theorem reload_is_stable json_loads json_dumps file :
  json_loads (json_dumps (PDict default_state)) = Some (PDict default_state) →
  let first := load_state json_loads json_dumps file in
  load_state json_loads json_dumps first.2 = first
  ∧ startup json_loads json_dumps file = first.
Proof.
  intros Hround first.
  assert (Hdefault : load_state json_loads json_dumps
                       (Some (json_dumps (PDict default_state)))
                     = (PDict default_state, Some (json_dumps (PDict default_state)))).
  { unfold load_state. rewrite Hround. reflexivity. }
  subst first. unfold startup, ensure_state_file, save_state.
  destruct file as [text|]; [|by rewrite Hdefault].
  split; [|done].
  destruct (json_loads text) as [v|] eqn:Hparse.
  - destruct v as [| | | | | |data];
      try (assert (Hfirst : load_state json_loads json_dumps (Some text)
                            = (PDict default_state,
                               Some (json_dumps (PDict default_state))))
             by (unfold load_state; by rewrite Hparse);
           by rewrite Hfirst).
    assert (Hfirst : load_state json_loads json_dumps (Some text)
                     = (PDict (back_fill default_state data), Some text))
      by (unfold load_state; by rewrite Hparse).
    by rewrite Hfirst.
  - assert (Hfirst : load_state json_loads json_dumps (Some text)
                     = (PDict default_state, Some (json_dumps (PDict default_state))))
      by (unfold load_state; by rewrite Hparse).
    by rewrite Hfirst.
Qed.

Lemma reload_is_stable_witness :
  stable_json_loads (stable_json_dumps (PDict default_state)) = Some (PDict default_state)
  ∧ load_state stable_json_loads stable_json_dumps
      (load_state stable_json_loads stable_json_dumps None).2
    = load_state stable_json_loads stable_json_dumps None
  ∧ startup stable_json_loads stable_json_dumps None
    = load_state stable_json_loads stable_json_dumps None.
Proof.
  assert (H : stable_json_loads (stable_json_dumps (PDict default_state))
              = Some (PDict default_state)) by reflexivity.
  split; [exact H|].
  exact (reload_is_stable stable_json_loads stable_json_dumps None H).
Defined.

(** ** The alert helper *)

Lemma group_has_recipients g :
  g ∈ GROUPS.*1 → ∃ t ts, PyDict.get g GROUP_EMAIL_MAP = Some (t :: ts).
Proof.
  unfold GROUPS. rewrite list_elem_of_In. cbn.
  intros [<-|[<-|[<-|[<-|[]]]]]; by eexists _, _.
Qed.

(** X15.  [send_group_alerts] sends one e-mail for each group of its
    argument that has a row and a non-empty recipient list, to that list and
    with the prefix and the group in the subject, and nothing else; it never
    logs.  Every group of [GROUPS] has recipients, so for results whose groups
    are among them exactly the groups without rows are skipped. *)
Theorem send_group_alerts_exactly prefix results :
  (∀ e, Sent e ∈ send_group_alerts prefix results ↔
        ∃ g data to,
          (g, data) ∈ results
          ∧ rows data ≠ []
          ∧ PyDict.get g GROUP_EMAIL_MAP = Some to
          ∧ to ≠ []
          ∧ e = {| subject := prefix +:+ " [" +:+ g +:+ "]";
                   body := build_report_html [(g, data)] (issues data);
                   recipients := Some to |})
  ∧ (∀ x, x ∈ send_group_alerts prefix results → ∃ e, x = Sent e)
  ∧ length (send_group_alerts prefix results) ≤ length results
  ∧ ((∀ g, g ∈ results.*1 → g ∈ GROUPS.*1) →
       length (send_group_alerts prefix results)
         = length (filter (λ g, rows g.2 ≠ []) results)).
Proof.
  split; [|split; [|split]].
  - intros e. unfold send_group_alerts. rewrite list_elem_of_bind. split.
    + intros ([g data] & He & Hin). cbn [fst snd] in He.
      destruct (rows data) as [|r0 rs] eqn:Hrows; [by apply elem_of_nil in He|].
      destruct (PyDict.get g GROUP_EMAIL_MAP) as [[|t ts]|] eqn:Hto;
        try by apply elem_of_nil in He.
      apply list_elem_of_singleton in He. injection He as ->.
      exists g, data, (t :: ts). by rewrite Hrows.
    + intros (g & data & to & Hin & Hrows & Hto & Hne & ->).
      exists (g, data). split; [|done]. cbn [fst snd].
      destruct (rows data); [done|]. rewrite Hto. destruct to; [done|]. left.
  - intros x. apply send_group_alerts_sent.
  - unfold send_group_alerts. induction results as [|[g data] results IH]; [done|].
    rewrite bind_cons, length_app. cbn [length fst snd].
    destruct (rows data); [cbn [length]; lia|].
    destruct (PyDict.get g GROUP_EMAIL_MAP) as [[|t ts]|]; cbn [length]; lia.
  - unfold send_group_alerts. induction results as [|[g data] results IH]; [done|].
    intros Hgroups. rewrite bind_cons, length_app, filter_cons. cbn [fst snd].
    rewrite IH by (intros g' Hg'; apply Hgroups; rewrite fmap_cons; by right).
    destruct (group_has_recipients g) as (t & ts & Hto).
    { apply Hgroups. rewrite fmap_cons. left. }
    rewrite Hto. destruct (rows data) as [|r0 rs].
    + by rewrite decide_False by (by intros H).
    + by rewrite decide_True by done.
Qed.

(** ** The reports *)

Lemma report_rows results overall :
  sections (build_report_html results overall) ≫= sec_rows = snd <$> flat_rows results.
Proof.
  unfold build_report_html, flat_rows. cbn [sections].
  induction results as [|[g data] results IH]; [done|].
  rewrite fmap_cons, !bind_cons, fmap_app, IH. cbn [fst snd sec_rows]. f_equal.
  rewrite <- list_fmap_compose. symmetry. apply list_fmap_id.
Qed.

Lemma report_total_nodes results overall :
  total_nodes (build_report_html results overall) = length (flat_rows results).
Proof.
  unfold build_report_html, flat_rows, PyDict.values. cbn [total_nodes].
  induction results as [|[g data] results IH]; [done|].
  rewrite !fmap_cons, bind_cons, length_app, length_fmap. cbn [sum_list fst snd].
  by rewrite IH.
Qed.

Lemma critical_rows (l : list row) :
  filter (λ r, HtmlReport.severity r = "CRITICAL") l = filter (λ r, is_issue r) l.
Proof.
  apply list_filter_iff. intros r. unfold HtmlReport.severity.
  destruct (is_issue r); split; done.
Qed.

Lemma impaired_rows (l : list (string * row)) :
  length (impaired l) = length (filter (λ r, is_issue r) (snd <$> l)).
Proof.
  unfold impaired. induction l as [|[g r] l IH]; [done|].
  rewrite fmap_cons, !filter_cons. cbn [snd].
  repeat case_decide; cbn [snd length] in *; try done; by rewrite IH.
Qed.

(** X16.  In the report of a run's results, as the daily summary shows it,
    the banner and the tables agree: the node total is the number of table
    rows, the issue count of the banner is the number of rows whose status
    is CRITICAL, each group's header count is the number of CRITICAL rows of
    its table, and the banner reports all systems healthy exactly when
    every row is OK. *)
Theorem summary_report_consistent load_config ping_check ssh_check update_status_files :
  let checks := run_checks_once load_config ping_check ssh_check update_status_files in
  let rep := build_report_html checks.1.1 checks.1.2 in
  let shown := sections rep ≫= sec_rows in
  total_nodes rep = length shown
  ∧ shown_issues rep
    = length (filter (λ r, HtmlReport.severity r = "CRITICAL") shown)
  ∧ (healthy rep = true ↔ ∀ r, r ∈ shown → HtmlReport.severity r = "OK")
  ∧ (∀ s, s ∈ sections rep →
       sec_issues s
       = length (filter (λ r, HtmlReport.severity r = "CRITICAL") (sec_rows s)))
  ∧ sec_group <$> sections rep = checks.1.1.*1.
Proof.
  intros checks rep shown.
  destruct (run_checks_once_shape load_config ping_check ssh_check update_status_files)
    as (Hres & Hsum & _).
  fold checks in Hres, Hsum.
  assert (Hcount : ∀ g data, (g, data) ∈ checks.1.1 →
            issues data = length (filter (λ r, is_issue r) (rows data))).
  { intros g data Hin. rewrite Hres in Hin.
    apply list_elem_of_fmap in Hin as ([g' nodes] & [= -> ->] & _). cbn [snd].
    destruct (check_group_shape ping_check ssh_check update_status_files nodes)
      as [Hr Hi].
    by rewrite Hi, Hr. }
  assert (Hshown : shown = snd <$> flat_rows checks.1.1) by apply report_rows.
  assert (Hissues : shown_issues rep
                    = length (filter (λ r, HtmlReport.severity r = "CRITICAL") shown)).
  { rewrite critical_rows, Hshown, <- impaired_rows.
    change (shown_issues rep) with checks.1.2.
    rewrite Hsum. by apply impaired_flat_rows. }
  split; [|split; [done|split; [|split]]].
  - rewrite Hshown, length_fmap. apply report_total_nodes.
  - change (healthy rep) with (bool_decide (shown_issues rep = 0)).
    rewrite bool_decide_eq_true, Hissues, length_zero_iff_nil. split.
    + intros Hnil r Hr.
      destruct (is_issue r) eqn:Hi; [|by unfold HtmlReport.severity; rewrite Hi].
      assert (Hin : r ∈ filter (λ r, HtmlReport.severity r = "CRITICAL") shown).
      { apply list_elem_of_filter. split; [|done].
        unfold HtmlReport.severity. by rewrite Hi. }
      rewrite Hnil in Hin. by apply elem_of_nil in Hin.
    + intros Hok. apply filter_none. intros r Hr Hcrit.
      rewrite (Hok r Hr) in Hcrit. discriminate.
  - intros s Hs. apply list_elem_of_fmap in Hs as ([g data] & -> & Hin).
    cbn [sec_issues sec_rows fst snd]. rewrite critical_rows. by apply (Hcount g).
  - cbn [sections build_report_html rep]. rewrite <- list_fmap_compose.
    apply list_fmap_ext. by intros i [g data] _.
Qed.

(** X17.  Each e-mail of the daily reminder for a run's results reports one
    group of [GROUPS] with at least one row, all of them impaired, and shows
    their number as the group's issue count, as the issue count of the
    banner and as the node total; every group with a positive issue count
    gets one. *)
Theorem reminder_reports_consistent load_config ping_check ssh_check update_status_files :
  let checks := run_checks_once load_config ping_check ssh_check update_status_files in
  let mails := send_group_alerts REMINDER_PREFIX (issues_only checks.1.1) in
  (∀ e, Sent e ∈ mails →
        ∃ g rs,
          g ∈ GROUPS.*1
          ∧ subject e = REMINDER_PREFIX +:+ " [" +:+ g +:+ "]"
          ∧ sections (body e) = [ReportSection g (length rs) rs]
          ∧ rs ≠ []
          ∧ (∀ r, r ∈ rs → is_issue r = true)
          ∧ shown_issues (body e) = length rs
          ∧ total_nodes (body e) = length rs
          ∧ healthy (body e) = false)
  ∧ length mails = length (filter (λ g, 0 < issues g.2) checks.1.1).
Proof.
  intros checks mails.
  destruct (run_checks_once_shape load_config ping_check ssh_check update_status_files)
    as (Hres & _ & _ & Hgroups & _).
  fold checks in Hres, Hgroups.
  assert (Hcount : ∀ g data, (g, data) ∈ checks.1.1 →
            issues data = length (filter (λ r, is_issue r) (rows data))).
  { intros g data Hin. rewrite Hres in Hin.
    apply list_elem_of_fmap in Hin as ([g' nodes] & [= -> ->] & _). cbn [snd].
    destruct (check_group_shape ping_check ssh_check update_status_files nodes)
      as [Hr Hi].
    by rewrite Hi, Hr. }
  split.
  - intros e (g & data & to & Hin & Hrows & _ & ->)%elem_of_send_group_alerts.
    apply elem_of_issues_only in Hin as (full & Hin & Hpos & Hi & Hr).
    assert (Hlen : issues data = length (rows data)).
    { rewrite Hi, Hr. by apply (Hcount g). }
    exists g, (rows data). split.
    { apply Hgroups. apply list_elem_of_fmap. by exists (g, full). }
    split; [done|]. cbn [body sections build_report_html fmap list_fmap fst snd
                         shown_issues total_nodes healthy].
    rewrite Hlen. split; [done|]. split; [done|]. split.
    { intros r Hin'. rewrite Hr in Hin'. apply list_elem_of_filter in Hin' as [H _].
      by apply Is_true_true. }
    split; [done|]. split.
    { unfold PyDict.values. cbn. lia. }
    apply bool_decide_eq_false. destruct (rows data); [done|]. cbn [length]. lia.
  - subst mails. unfold send_group_alerts, issues_only.
    assert (Hall : ∀ g, g ∈ filter (λ g : string * group_data, 0 < issues g.2) checks.1.1 →
              g ∈ checks.1.1 ∧ 0 < issues g.2).
    { intros g [? ?]%list_elem_of_filter. done. }
    revert Hall. generalize (filter (λ g : string * group_data, 0 < issues g.2) checks.1.1).
    intros l. induction l as [|[g full] l IH]; intros Hall; [done|].
    rewrite fmap_cons, bind_cons, length_app. cbn [fst snd length].
    rewrite IH by (intros g' Hg'; apply Hall; by right). 
    destruct (Hall (g, full)) as [Hin Hpos]; [left|]. cbn [snd] in Hpos.
    rewrite (Hcount g full Hin) in Hpos.
    destruct (group_has_recipients g) as (t & ts & Hto).
    { apply Hgroups. apply list_elem_of_fmap. by exists (g, full). }
    rewrite Hto. destruct (filter (λ r, is_issue r) (rows full)); [cbn in Hpos; lia|].
    done.
Qed.

(** X18.  Rendering a table row never fails on a missing style or badge.
    The status cell, the border colour and the node state cell all follow
    the row's issue flag, CRITICAL, red and DOWN for an impaired row and OK,
    green and UP for a healthy one; a role without a badge of its own gets
    the NODE badge; the uptime of the row is not shown. *)
Theorem render_row_total escape r :
  ∃ cells,
    HtmlReport.render_row escape r = Some cells
    ∧ HtmlReport.node_cell cells = escape (name r)
    ∧ (HtmlReport.status_text cells, HtmlReport.status_color cells,
       HtmlReport.border_color cells, HtmlReport.node_state_cell cells)
      = (if is_issue r
         then ("🔴 CRITICAL", "#d93025", "#d93025", "🔴 DOWN")
         else ("🟢 OK", "#1e8e3e", "#1e8e3e", "🟢 UP"))
    ∧ (PyDict.get (role r) HtmlReport.ROLE_BADGE = None →
         HtmlReport.role_text cells = "NODE"
         ∧ HtmlReport.role_color cells = "#546e7a")
    ∧ ∀ shown,
        HtmlReport.render_row escape
          {| name := name r; ip := ip r; ping := ping r; ssh := ssh r;
             last_seen := last_seen r; uptime := shown;
             is_issue := is_issue r; role := role r |}
        = Some cells.
Proof.
  unfold HtmlReport.render_row, HtmlReport.severity, HtmlReport.node_state.
  cbn [name ip ping ssh last_seen uptime is_issue role].
  destruct (is_issue r); eexists; (split; [reflexivity|]); cbn;
    (split; [reflexivity|]); (split; [reflexivity|]);
    (split; [by intros ->|done]).
Qed.

(** ** The row of a node *)

(** X19.  The issue flag of a checked node agrees with the two check cells
    of its row: the node is healthy exactly when both the ping cell and the
    login cell are green.  With [skip_ssh] set the login cell is green and
    the flag is the failure of the ping, whatever the login check of the
    host would answer; the address cell is never empty. *)
Theorem row_flag_matches_cells ping_check ssh_check update_status_files e :
  let r := check_entry ping_check ssh_check update_status_files e in
  (is_issue r = false ↔ ping r = "🟢 OK" ∧ ssh r = "🟢 OK")
  ∧ (e_skip_ssh e = Some true →
       ssh r = "🟢 OK"
       ∧ is_issue r = negb (ping_check (default "" (e_ip e)) PING_RETRIES).1
       ∧ ∀ other_check,
           check_entry ping_check other_check update_status_files e = r)
  ∧ ip r ≠ "".
Proof.
  intros r. subst r. unfold check_entry. cbn [is_issue ping ssh ip].
  split; [|split].
  - destruct (default false (e_skip_ssh e)); cbn [fst snd negb andb].
    + destruct (ping_check _ _).1; cbn [negb orb]; split; try done.
      * intros [H _]. revert H. cbn. discriminate.
    + destruct (ping_check _ _).1, (ssh_check _ _).1; cbn [negb orb andb];
        split; try done.
      * intros [_ H]. revert H. cbn. discriminate.
      * intros [H _]. revert H. cbn. discriminate.
      * intros [H _]. revert H. cbn. discriminate.
  - intros ->. cbn [default from_option id fst snd negb andb].
    split; [done|]. split; [by rewrite orb_false_r|done].
  - destruct (decide (default "" (e_ip e) = "")); done.
Qed.

(** ** Two consecutive runs *)

Lemma NoDup_row_keys_later pre g r post :
  NoDup (row_keys (pre ++ (g, r) :: post)) →
  ∀ gr, gr ∈ post → node_key gr.1 gr.2 ≠ node_key g r.
Proof.
  unfold row_keys. rewrite fmap_app, fmap_cons. cbn [fst snd].
  intros Hnd gr Hin Heq. apply NoDup_app in Hnd as (_ & _ & Hnd).
  apply NoDup_cons in Hnd as [Hfresh _]. apply Hfresh. rewrite <- Heq.
  apply list_elem_of_fmap. by exists gr.
Qed.

(** X20.  Alerts follow changes between consecutive runs, not states.  For
    a node probed in two consecutive runs, the keys of each run being
    pairwise distinct, the second run puts its row in the down alert exactly
    when the node was healthy at the first run and is impaired at the second,
    and in the recovery alert exactly when it was impaired and is healthy: a
    node that stays down is not reported down again. *)
Theorem alerts_follow_changes results1 results2 ns g r1 r2 :
  NoDup (row_keys (flat_rows results1)) →
  NoDup (row_keys (flat_rows results2)) →
  (g, r1) ∈ flat_rows results1 →
  (g, r2) ∈ flat_rows results2 →
  name r1 = name r2 →
  let first := detect results1 (start ns) in
  let second := detect results2 (start (nodes first)) in
  (r2 ∈ rows (entry_of g (down_now second)) ↔ is_issue r1 = false ∧ is_issue r2 = true)
  ∧ (r2 ∈ rows (entry_of g (recovered_now second)) ↔
       is_issue r1 = true ∧ is_issue r2 = false).
Proof.
  intros Hnd1 Hnd2 Hin1 Hin2 Hname first second.
  assert (Hkey : node_key g r2 = node_key g r1) by (unfold node_key; by rewrite Hname).
  assert (Hfirst : nodes first !! node_key g r2 = Some (is_issue r1)).
  { subst first. rewrite detect_flat, Hkey.
    apply list_elem_of_split in Hin1 as (pre & post & Heq). rewrite Heq in *.
    apply nodes_detect_rows_last. by apply (NoDup_row_keys_later pre g r1 post). }
  subst second. rewrite detect_flat.
  destruct (detect_rows_alerts (flat_rows results2) (start (nodes first)) g r2)
    as [Hd Hr].
  assert (Hseen : ∀ pre post, flat_rows results2 = pre ++ (g, r2) :: post →
            nodes (detect_rows pre (start (nodes first))) !! node_key g r2
            = Some (is_issue r1)).
  { intros pre post Heq. rewrite nodes_detect_rows_other; [done|].
    rewrite Heq in Hnd2. by apply (NoDup_row_keys_split pre g r2 post). }
  apply list_elem_of_split in Hin2 as (pre2 & post2 & Heq2).
  rewrite Hd, Hr. split; split.
  - intros [H|(pre & post & Heq & Hn & Hi)]; [by apply elem_of_nil in H|].
    rewrite (Hseen pre post Heq) in Hn. by injection Hn as ->.
  - intros [H1 H2]. right. exists pre2, post2. split; [done|].
    rewrite (Hseen pre2 post2 Heq2), H1. done.
  - intros [H|(pre & post & Heq & Hn & Hi)]; [by apply elem_of_nil in H|].
    rewrite (Hseen pre post Heq) in Hn. by injection Hn as ->.
  - intros [H1 H2]. right. exists pre2, post2. split; [done|].
    rewrite (Hseen pre2 post2 Heq2), H1. done.
Qed.

Lemma alerts_follow_changes_witness :
  NoDup (row_keys (flat_rows outage_results))
  ∧ NoDup (row_keys (flat_rows partial_recovery_results))
  ∧ ¬ (sample_row "nis2" true
         ∈ rows (entry_of "NIS Servers"
                   (down_now
                      (detect partial_recovery_results
                         (start (nodes (detect outage_results (start ∅))))))))
  ∧ sample_row "nis1" false
      ∈ rows (entry_of "NIS Servers"
                (recovered_now
                   (detect partial_recovery_results
                      (start (nodes (detect outage_results (start ∅))))))).
Proof.
  assert (H1 : NoDup (row_keys (flat_rows outage_results))).
  { apply (bool_decide_unpack _). vm_compute. exact I. }
  assert (H2 : NoDup (row_keys (flat_rows partial_recovery_results))).
  { apply (bool_decide_unpack _). vm_compute. exact I. }
  split; [exact H1|]. split; [exact H2|]. split.
  - intros Hin.
    apply (proj1 (alerts_follow_changes outage_results partial_recovery_results ∅
                    "NIS Servers" (sample_row "nis2" true) (sample_row "nis2" true)
                    H1 H2
                    ltac:(apply list_elem_of_In; cbn; auto)
                    ltac:(apply list_elem_of_In; cbn; auto)
                    eq_refl)) in Hin as [Hflag _].
    discriminate.
  - apply (proj2 (alerts_follow_changes outage_results partial_recovery_results ∅
                    "NIS Servers" (sample_row "nis1" true) (sample_row "nis1" false)
                    H1 H2
                    ltac:(apply list_elem_of_In; cbn; auto)
                    ltac:(apply list_elem_of_In; cbn; auto)
                    eq_refl)).
    by split.
Defined.

(** ** The daily reminder of a run *)

Lemma reminder_subject_not_down g g' :
  REMINDER_PREFIX +:+ " [" +:+ g +:+ "]" ≠ DOWN_PREFIX +:+ " [" +:+ g' +:+ "]".
Proof. cbn. discriminate. Qed.

Lemma reminder_subject_not_recovery g g' :
  REMINDER_PREFIX +:+ " [" +:+ g +:+ "]" ≠ RECOVERY_PREFIX +:+ " [" +:+ g' +:+ "]".
Proof. cbn. discriminate. Qed.

Lemma reminder_subject_not_summary g :
  REMINDER_PREFIX +:+ " [" +:+ g +:+ "]" ≠ SUMMARY_SUBJECT.
Proof. cbn. discriminate. Qed.

Lemma send_group_alerts_subject prefix results e :
  Sent e ∈ send_group_alerts prefix results →
  ∃ g, subject e = prefix +:+ " [" +:+ g +:+ "]".
Proof.
  intros (g & data & to & _ & _ & _ & ->)%elem_of_send_group_alerts. by exists g.
Qed.

Lemma send_group_alerts_has prefix results g data to :
  (g, data) ∈ results →
  rows data ≠ [] →
  PyDict.get g GROUP_EMAIL_MAP = Some to →
  to ≠ [] →
  Sent {| subject := prefix +:+ " [" +:+ g +:+ "]";
          body := build_report_html [(g, data)] (issues data);
          recipients := Some to |}
    ∈ send_group_alerts prefix results.
Proof.
  intros Hin Hrows Hto Hne. unfold send_group_alerts. apply list_elem_of_bind.
  exists (g, data). split; [|done]. cbn [fst snd].
  destruct (rows data); [done|]. rewrite Hto. destruct to; [done|]. left.
Qed.

(** The rules before the reminder send no reminder e-mail. *)
Lemma earlier_rules_no_reminder_mail hour today results overall st e :
  let d := detect results (start (node_state st)) in
  let a1 := immediate_down_alert (down_now d) (detected results st) in
  let a2 := immediate_recovery_alert (recovered_now d) a1.1 in
  let a3 := daily_summary hour today results overall a2.1 in
  Sent e ∈ a1.2 ++ a2.2 ++ a3.2 → ¬ reminder_mail e.
Proof.
  intros d a1 a2 a3 Hin [g Hg]. rewrite !elem_of_app in Hin.
  destruct Hin as [H|[H|H]].
  - subst a1. unfold immediate_down_alert in H. destruct (down_now d); cbn [snd] in H.
    + by apply elem_of_nil in H.
    + apply elem_of_app in H as [H|H%list_elem_of_singleton]; [|done].
      apply send_group_alerts_subject in H as [g' Hg']. rewrite Hg' in Hg.
      symmetry in Hg. by apply reminder_subject_not_down in Hg.
  - subst a2. unfold immediate_recovery_alert in H.
    destruct (recovered_now d); cbn [snd] in H.
    + by apply elem_of_nil in H.
    + apply elem_of_app in H as [H|H%list_elem_of_singleton]; [|done].
      apply send_group_alerts_subject in H as [g' Hg']. rewrite Hg' in Hg.
      symmetry in Hg. by apply reminder_subject_not_recovery in Hg.
  - subst a3. rewrite daily_summary_fires in H.
    destruct (decide _); cbn [snd] in H; [|by apply elem_of_nil in H].
    apply elem_of_cons in H as [[= ->]|H%list_elem_of_singleton]; [|done].
    cbn [subject] in Hg. symmetry in Hg. by apply reminder_subject_not_summary in Hg.
Qed.

(** The reminder e-mails of a run are the e-mails of its reminder rule. *)
Lemma main_body_reminder_mails hour today results overall st e :
  Sent e ∈ (main_body hour today results overall st).2 ∧ reminder_mail e ↔
  reminder_due hour today overall (before_reminder hour today results overall st)
  ∧ Sent e ∈ send_group_alerts REMINDER_PREFIX (issues_only results).
Proof.
  assert (Hsplit : (main_body hour today results overall st).2
            = ((immediate_down_alert
                  (down_now (detect results (start (node_state st))))
                  (detected results st)).2
               ++ (immediate_recovery_alert
                     (recovered_now (detect results (start (node_state st))))
                     (immediate_down_alert
                        (down_now (detect results (start (node_state st))))
                        (detected results st)).1).2
               ++ (daily_summary hour today results overall
                     (immediate_recovery_alert
                        (recovered_now (detect results (start (node_state st))))
                        (immediate_down_alert
                           (down_now (detect results (start (node_state st))))
                           (detected results st)).1).1).2)
              ++ (daily_reminder hour today results overall
                    (before_reminder hour today results overall st)).2).
  { unfold main_body, before_reminder. cbn [snd]. by rewrite <- !app_assoc. }
  rewrite Hsplit, elem_of_app, daily_reminder_fires. split.
  - intros [[H|H] Hmail].
    + by apply earlier_rules_no_reminder_mail in H.
    + destruct (decide _) as [Hdue|Hdue]; cbn [snd] in H;
        [|by apply elem_of_nil in H].
      apply elem_of_app in H as [H|H%list_elem_of_singleton]; done.
  - intros [Hdue H]. split.
    + right. rewrite decide_True by done. cbn [snd]. apply elem_of_app. by left.
    + by apply send_group_alerts_subject in H.
Qed.

Lemma sum_list_positive (l : list nat) : 0 < sum_list l → ∃ x, x ∈ l ∧ 0 < x.
Proof.
  induction l as [|x l IH]; intros Hpos; simpl in Hpos; [lia|].
  destruct (decide (0 < x)) as [Hx|Hx].
  - exists x. split; [left|done].
  - destruct IH as (y & Hy & Hy0); [lia|]. exists y. split; [by right|done].
Qed.

(** For results whose groups count their impaired rows and are groups of
    [GROUPS], the reminder's e-mails are one per group with a positive count,
    none skipped. *)
Lemma reminder_mails_of results e :
  (∀ g data, (g, data) ∈ results →
     issues data = length (filter (λ r, is_issue r) (rows data))) →
  (∀ g, g ∈ results.*1 → g ∈ GROUPS.*1) →
  Sent e ∈ send_group_alerts REMINDER_PREFIX (issues_only results) ↔
  ∃ g full to,
    (g, full) ∈ results
    ∧ 0 < issues full
    ∧ PyDict.get g GROUP_EMAIL_MAP = Some to
    ∧ to ≠ []
    ∧ e = reminder_for g full to.
Proof.
  intros Hcount Hgroups. split.
  - intros (g & data & to & Hin & _ & Hto & ->)%elem_of_send_group_alerts.
    apply elem_of_issues_only in Hin as (full & Hin & Hpos & Hi & Hr).
    exists g, full, to. split; [done|]. split; [done|]. split; [done|]. split.
    + destruct (group_has_recipients g) as (t & ts & Hto').
      { apply Hgroups. apply list_elem_of_fmap. by exists (g, full). }
      rewrite Hto in Hto'. by injection Hto' as ->.
    + unfold reminder_for. destruct data as [rs n]. cbn [rows issues] in *.
      by subst.
  - intros (g & full & to & Hin & Hpos & Hto & Hne & ->). unfold reminder_for.
    apply (send_group_alerts_has REMINDER_PREFIX (issues_only results) g
             {| rows := filter (λ r, is_issue r) (rows full);
                issues := issues full |} to); [|cbn [rows]|done|done].
    + apply elem_of_issues_only. by exists full.
    + rewrite (Hcount g full Hin) in Hpos.
      destruct (filter (λ r, is_issue r) (rows full)); [cbn in Hpos; lia|done].
Qed.

(** The daily reminder in a run of [main]: the log line, the e-mails and the
    stored date. *)
Lemma main_reminder load_config ping_check ssh_check update_status_files hour today st :
  let checks := run_checks_once load_config ping_check ssh_check update_status_files in
  let gate_state := before_reminder hour (isoformat today) checks.1.1 checks.1.2 st in
  let rule := daily_reminder hour (isoformat today) checks.1.1 checks.1.2 gate_state in
  let out := main load_config ping_check ssh_check update_status_files hour today st in
  let due := reminder_due hour (isoformat today) checks.1.2 gate_state in
  (Logged DailyReminderSent ∈ out.2 ↔ due)
  ∧ (∀ e, Sent e ∈ out.2 ∧ reminder_mail e ↔
          due ∧ ∃ g full to,
                  (g, full) ∈ checks.1.1
                  ∧ 0 < issues full
                  ∧ PyDict.get g GROUP_EMAIL_MAP = Some to
                  ∧ to ≠ []
                  ∧ e = reminder_for g full to)
  ∧ (due → ∀ g full, (g, full) ∈ checks.1.1 → 0 < issues full →
             ∃ to, to ≠ [] ∧ Sent (reminder_for g full to) ∈ out.2)
  ∧ (due → ∃ g full, (g, full) ∈ checks.1.1 ∧ 0 < issues full)
  ∧ last_daily_reminder out.1
    = (if decide due then isoformat today else last_daily_reminder gate_state)
  ∧ ∃ earlier, out = (rule.1, earlier ++ rule.2).
Proof.
  intros checks gate_state rule out due.
  destruct (run_checks_once_shape load_config ping_check ssh_check update_status_files)
    as (Hres & Hsum & _ & Hgroups & Hlog).
  fold checks in Hres, Hsum, Hgroups, Hlog.
  assert (Hcount : ∀ g data, (g, data) ∈ checks.1.1 →
            issues data = length (filter (λ r, is_issue r) (rows data))).
  { intros g data Hin. rewrite Hres in Hin.
    apply list_elem_of_fmap in Hin as ([g' nodes] & [= -> ->] & _). cbn [snd].
    destruct (check_group_shape ping_check ssh_check update_status_files nodes)
      as [Hr Hi].
    by rewrite Hi, Hr. }
  set (body := main_body hour (isoformat today) checks.1.1 checks.1.2 st).
  assert (Hout : out = (body.1, [Logged MonitorStarted] ++ checks.2 ++ body.2))
    by reflexivity.
  assert (Hlogged : ∀ x, x ∈ checks.2 →
            x ≠ Logged DailyReminderSent ∧ ∀ e, x ≠ Sent e).
  { intros x Hx. rewrite Hlog in Hx.
    apply list_elem_of_fmap in Hx as (g & -> & _). unfold load_line.
    by destruct (load_config g.2). }
  assert (Hsent : ∀ e, Sent e ∈ out.2 ↔ Sent e ∈ body.2).
  { intros e. rewrite Hout. cbn [snd]. rewrite !elem_of_app, list_elem_of_singleton.
    split.
    - intros [[=]|[H|H]]; [|done]. destruct (Hlogged _ H) as [_ Hne].
      by destruct (Hne e).
    - intros H. right. by right. }
  assert (Hmails : ∀ e, Sent e ∈ out.2 ∧ reminder_mail e ↔
            due ∧ ∃ g full to,
                    (g, full) ∈ checks.1.1
                    ∧ 0 < issues full
                    ∧ PyDict.get g GROUP_EMAIL_MAP = Some to
                    ∧ to ≠ []
                    ∧ e = reminder_for g full to).
  { intros e. rewrite Hsent. subst body. rewrite main_body_reminder_mails.
    fold gate_state. fold due. by rewrite (reminder_mails_of _ _ Hcount Hgroups). }
  split; [|split; [done|split; [|split; [|split]]]].
  - rewrite Hout. cbn [snd]. rewrite !elem_of_app, list_elem_of_singleton.
    subst body. rewrite main_body_log. fold gate_state. fold due. split.
    + intros [[=]|[H|H]].
      * by destruct (Hlogged _ H) as [Hne _].
      * destruct H as [[_ [=]]|[[_ [=]]|[[_ [=]]|[H _]]]]. done.
    + intros H. right. right. by repeat right.
  - intros Hdue g full Hin Hpos.
    destruct (group_has_recipients g) as (t & ts & Hto).
    { apply Hgroups. apply list_elem_of_fmap. by exists (g, full). }
    exists (t :: ts). split; [done|].
    apply (proj2 (Hmails (reminder_for g full (t :: ts)))).
    split; [done|]. by exists g, full, (t :: ts).
  - intros (Hpos & _). rewrite Hsum in Hpos.
    apply sum_list_positive in Hpos as (n & Hn & Hn0).
    apply list_elem_of_fmap in Hn as (data & -> & Hdata).
    unfold PyDict.values in Hdata.
    apply list_elem_of_fmap in Hdata as ([g full] & -> & Hin). by exists g, full.
  - rewrite Hout. cbn [fst]. subst body. rewrite main_body_reminder_date.
    fold gate_state. fold due. done.
  - destruct (main_body_reminder hour (isoformat today) checks.1.1 checks.1.2 st)
      as (earlier & _ & Heq).
    exists ([Logged MonitorStarted] ++ checks.2 ++ earlier).
    rewrite Hout. fold body in Heq. rewrite Heq. cbn [fst snd].
    fold gate_state. fold rule. by rewrite <- !app_assoc.
Qed.

(** C4.  In a run whose [recovered_now] is not empty the reminder date is
    the empty string when the daily reminder rule is evaluated, whatever it
    was when the state was loaded.  So with issues outstanding at the reminder
    hour the reminder is sent in that run: the line is logged, every group
    with a positive issue count gets its reminder e-mail, of which there is
    at least one, and the date is set to today.  Otherwise no reminder e-mail
    is sent and the date stays empty. *)
Theorem recovery_rearms_reminder
    load_config ping_check ssh_check update_status_files hour today st :
  let checks := run_checks_once load_config ping_check ssh_check update_status_files in
  let results := checks.1.1 in
  let overall := checks.1.2 in
  let gate_state := before_reminder hour (isoformat today) results overall st in
  let rule := daily_reminder hour (isoformat today) results overall gate_state in
  let out := main load_config ping_check ssh_check update_status_files hour today st in
  recovered_now (detect results (start (node_state st))) ≠ [] →
  last_daily_reminder gate_state = ""
  ∧ (∃ earlier, out = (rule.1, earlier ++ rule.2))
  ∧ (0 < overall → hour = DAILY_REMINDER_HOUR →
       Logged DailyReminderSent ∈ out.2
       ∧ (∃ e, Sent e ∈ out.2 ∧ reminder_mail e)
       ∧ (∀ g full, (g, full) ∈ results → 0 < issues full →
            ∃ to, to ≠ [] ∧ Sent (reminder_for g full to) ∈ out.2)
       ∧ last_daily_reminder out.1 = isoformat today)
  ∧ (¬ (0 < overall ∧ hour = DAILY_REMINDER_HOUR) →
       ¬ (Logged DailyReminderSent ∈ out.2)
       ∧ (∀ e, Sent e ∈ out.2 → ¬ reminder_mail e)
       ∧ last_daily_reminder out.1 = "").
Proof.
  intros checks results overall gate_state rule out Hrec.
  destruct (main_reminder load_config ping_check ssh_check update_status_files
              hour today st) as (Hlog & Hmails & Hall & Hsome & Hdate & Hsplit).
  fold checks in Hlog, Hmails, Hall, Hsome, Hdate, Hsplit.
  fold results in Hmails, Hall, Hsome.
  fold results overall gate_state in Hlog, Hmails, Hall, Hsome, Hdate, Hsplit.
  fold out in Hlog, Hmails, Hall, Hdate, Hsplit.
  assert (Hempty : last_daily_reminder gate_state = "").
  { subst gate_state. rewrite before_reminder_date. by destruct (recovered_now _). }
  split; [done|]. split; [done|]. split.
  - intros Hpos Hhour.
    assert (Hdue : reminder_due hour (isoformat today) overall gate_state).
    { unfold reminder_due. rewrite Hempty. split; [done|]. split; [done|].
      intros Heq. by apply (isoformat_nonempty today). }
    split; [by apply Hlog|]. split; [|split].
    + destruct (Hsome Hdue) as (g & full & Hin & Hfull).
      destruct (Hall Hdue g full Hin Hfull) as (to & _ & Hsent).
      exists (reminder_for g full to). split; [done|]. by exists g.
    + by apply Hall.
    + rewrite Hdate. by rewrite decide_True.
  - intros Hno.
    assert (Hdue : ¬ reminder_due hour (isoformat today) overall gate_state).
    { intros (? & ? & _). by apply Hno. }
    split; [by rewrite Hlog|]. split.
    + intros e Hsent Hmail. by destruct (proj1 (Hmails e) (conj Hsent Hmail)).
    + rewrite Hdate. by rewrite decide_False.
Qed.

Lemma recovery_rearms_reminder_witness :
  recovered_now
    (detect (run_checks_once nis_load_config sample_ping_check sample_ssh_check
               sample_update_status_files).1.1
       (start (node_state reminded_state))) ≠ []
  ∧ last_daily_reminder reminded_state = isoformat may_day
  ∧ (∃ to, to ≠ []
           ∧ Sent (reminder_for "NIS Servers" nis_checked to)
               ∈ (main nis_load_config sample_ping_check sample_ssh_check
                    sample_update_status_files 10 may_day reminded_state).2)
  ∧ last_daily_reminder
      (main nis_load_config sample_ping_check sample_ssh_check
         sample_update_status_files 10 may_day reminded_state).1
    = isoformat may_day.
Proof.
  assert (H : recovered_now
                (detect (run_checks_once nis_load_config sample_ping_check
                           sample_ssh_check sample_update_status_files).1.1
                   (start (node_state reminded_state))) ≠ []).
  { vm_compute. intros [=]. }
  split; [exact H|]. split; [reflexivity|].
  destruct (recovery_rearms_reminder nis_load_config sample_ping_check sample_ssh_check
              sample_update_status_files 10 may_day reminded_state H)
    as (_ & _ & Hsent & _).
  destruct Hsent as (_ & _ & Hall & Hdate).
  - apply Nat.ltb_lt. vm_compute. reflexivity.
  - reflexivity.
  - split; [|exact Hdate].
    apply (Hall "NIS Servers" nis_checked).
    + apply list_elem_of_In. vm_compute. do 3 right. left. reflexivity.
    + apply Nat.ltb_lt. vm_compute. reflexivity.
Defined.

(** C5.  A run sends the daily reminder exactly when issues are outstanding,
    the hour is the reminder hour and the reminder date, as it stands when the
    rule is evaluated, is not today: exactly then the line is logged and
    reminder e-mails are sent.  The e-mails are one for each group with a
    positive issue count, each the report of that group with only its
    impaired rows; every such group gets one and nothing else is sent under
    the reminder's subject.  A run that sends it leaves today as the reminder
    date, and another run leaves the date as the rule found it. *)
Theorem daily_reminder_rule
    load_config ping_check ssh_check update_status_files hour today st :
  let checks := run_checks_once load_config ping_check ssh_check update_status_files in
  let results := checks.1.1 in
  let overall := checks.1.2 in
  let gate_state := before_reminder hour (isoformat today) results overall st in
  let out := main load_config ping_check ssh_check update_status_files hour today st in
  let due := 0 < overall ∧ hour = DAILY_REMINDER_HOUR
             ∧ last_daily_reminder gate_state ≠ isoformat today in
  (Logged DailyReminderSent ∈ out.2 ↔ due)
  ∧ ((∃ e, Sent e ∈ out.2 ∧ reminder_mail e) ↔ due)
  ∧ (∀ e, Sent e ∈ out.2 ∧ reminder_mail e ↔
          due ∧ ∃ g full to,
                  (g, full) ∈ results
                  ∧ 0 < issues full
                  ∧ PyDict.get g GROUP_EMAIL_MAP = Some to
                  ∧ to ≠ []
                  ∧ e = reminder_for g full to)
  ∧ (due → ∀ g full, (g, full) ∈ results → 0 < issues full →
             ∃ to, to ≠ [] ∧ Sent (reminder_for g full to) ∈ out.2)
  ∧ (∀ g full to,
       sections (body (reminder_for g full to))
         = [ReportSection g (issues full) (filter (λ r, is_issue r) (rows full))]
       ∧ ∀ r, r ∈ filter (λ r, is_issue r) (rows full) ↔
              r ∈ rows full ∧ is_issue r = true)
  ∧ last_daily_reminder gate_state
    = match recovered_now (detect results (start (node_state st))) with
      | [] => last_daily_reminder st
      | _ :: _ => ""
      end
  ∧ (due → last_daily_reminder out.1 = isoformat today)
  ∧ (¬ due → last_daily_reminder out.1 = last_daily_reminder gate_state).
Proof.
  intros checks results overall gate_state out due.
  destruct (main_reminder load_config ping_check ssh_check update_status_files
              hour today st) as (Hlog & Hmails & Hall & Hsome & Hdate & _).
  fold checks in Hlog, Hmails, Hall, Hsome, Hdate.
  fold results overall gate_state in Hlog, Hmails, Hall, Hsome, Hdate.
  fold out in Hlog, Hmails, Hall, Hdate.
  change (reminder_due hour (isoformat today) overall gate_state) with due
    in Hlog, Hmails, Hall, Hsome, Hdate.
  split; [done|]. split; [|split; [done|split; [done|split; [|split; [|split]]]]].
  - split.
    + intros (e & Hsent & Hmail). by destruct (proj1 (Hmails e) (conj Hsent Hmail)).
    + intros Hdue. destruct (Hsome Hdue) as (g & full & Hin & Hfull).
      destruct (Hall Hdue g full Hin Hfull) as (to & _ & Hsent).
      exists (reminder_for g full to). split; [done|]. by exists g.
  - intros g full to. split; [done|]. intros r. rewrite list_elem_of_filter.
    split; intros [H1 H2].
    + split; [done|by apply Is_true_true].
    + split; [by apply Is_true_true|done].
  - subst gate_state. apply before_reminder_date.
  - intros Hdue. rewrite Hdate. by rewrite decide_True.
  - intros Hdue. rewrite Hdate. by rewrite decide_False.
Qed.

Lemma daily_reminder_rule_witness :
  Sent (reminder_for "NIS Servers" nis_checked
          ["dhyann@iisc.ac.in"; "shivaprasadl@iisc.ac.in"; "manjulap@iisc.ac.in"])
    ∈ (main nis_load_config sample_ping_check sample_ssh_check
         sample_update_status_files 10 may_day outage_state).2
  ∧ reminder_mail
      (reminder_for "NIS Servers" nis_checked
         ["dhyann@iisc.ac.in"; "shivaprasadl@iisc.ac.in"; "manjulap@iisc.ac.in"])
  ∧ last_daily_reminder
      (main nis_load_config sample_ping_check sample_ssh_check
         sample_update_status_files 10 may_day outage_state).1
    = isoformat may_day.
Proof.
  pose proof (daily_reminder_rule nis_load_config sample_ping_check sample_ssh_check
                sample_update_status_files 10 may_day outage_state)
    as (_ & _ & Hmails & _ & _ & _ & Hdate & _).
  assert (Hdue : 0 < (run_checks_once nis_load_config sample_ping_check sample_ssh_check
                        sample_update_status_files).1.2
                 ∧ 10 = DAILY_REMINDER_HOUR
                 ∧ last_daily_reminder
                     (before_reminder 10 (isoformat may_day)
                        (run_checks_once nis_load_config sample_ping_check
                           sample_ssh_check sample_update_status_files).1.1
                        (run_checks_once nis_load_config sample_ping_check
                           sample_ssh_check sample_update_status_files).1.2
                        outage_state)
                   ≠ isoformat may_day).
  { split; [apply Nat.ltb_lt; vm_compute; reflexivity|]. split; [reflexivity|].
    vm_compute. intros [=]. }
  destruct (proj2 (Hmails (reminder_for "NIS Servers" nis_checked
                             ["dhyann@iisc.ac.in"; "shivaprasadl@iisc.ac.in";
                              "manjulap@iisc.ac.in"]))) as [Hsent Hmail].
  - split; [exact Hdue|].
    exists "NIS Servers", nis_checked,
      ["dhyann@iisc.ac.in"; "shivaprasadl@iisc.ac.in"; "manjulap@iisc.ac.in"].
    split; [apply list_elem_of_In; vm_compute; do 3 right; left; reflexivity|].
    split; [apply Nat.ltb_lt; vm_compute; reflexivity|].
    split; [reflexivity|]. split; [discriminate|reflexivity].
  - split; [exact Hsent|]. split; [exact Hmail|]. exact (Hdate Hdue).
Defined.
